(** * Flashcard search pipeline: retrieval, rerank, generation, bridge

    A shallow embedding of [search_essential_logic] (flow.py, rerank.py,
    core.py), of the result protocol of [anki_script.py] and of the progress
    timeline of [interface.py], followed by the properties of the pipeline
    that its design document states and by further properties of the code.

    Conventions of the embedding.
    - A Python [str] is a [string]; characters are 8-bit, so the model covers
      texts whose code points are below 256, where the regex class [\d] is
      exactly the ASCII digits.
    - A Python exception is a value of [exn]; a function that may raise
      returns [exn + A] (pure code) or runs in the monad [M] (code that calls
      an external capability), whose state is the log of the calls made.
    - [float32] values are kept abstract (class [Float32]): the pipeline only
      divides, takes norms and dot products, and compares.
    - [np.argpartition] and [np.argsort] are library code whose order among
      equal keys is implementation-defined; the class [NumpySort] records
      their documented contract, and [stable_numpy] is one implementation. *)

From Stdlib Require Import ZArith Lia Ascii String.
From Stdlib Require Import Floats.SpecFloat.
From stdpp Require Import base option list sorting gmap strings pretty.

Local Open Scope string_scope.
Local Open Scope list_scope.
Local Open Scope Z_scope.

(** ** Python values shared by the modules *)

(** Exceptions the pipeline can see.  [DimensionMismatch] is the
    [ValueError] of flow.py:27, [KthOutOfBounds] the [ValueError] of
    [np.argpartition], [IndexError] an out-of-range position, [KeyError] a
    missing dictionary key, [ServiceError] anything raised by an external
    capability (network client, subprocess). *)
Inductive exn : Type :=
| DimensionMismatch (query_dim matrix_dim : nat)
| KthOutOfBounds (kth : Z) (size : nat)
| IndexError (index : Z) (size : nat)
| KeyError (key : string)
| ServiceError (msg : string).

(** [str(e)]. *)
Definition exn_str (e : exn) : string :=
  match e with
  | DimensionMismatch q m =>
      "Embedding dimension mismatch: query vector has " +:+ pretty q +:+
      " dimensions but embeddings matrix expects " +:+ pretty m +:+ " dimensions"
  | KthOutOfBounds k n =>
      "kth(=" +:+ pretty k +:+ ") out of bounds (" +:+ pretty n +:+ ")"
  | IndexError i n =>
      "index " +:+ pretty i +:+ " is out of bounds for axis 0 with size " +:+ pretty n
  | KeyError k => k
  | ServiceError msg => msg
  end.

(** The arithmetic and the order of [np.float32].  [f32_le] is the order
    numpy sorts by (a total preorder: NaN sorts last). *)
Class Float32 (F : Type) : Type := {
  f32_one : F;
  f32_eq0 : F → bool;
  f32_div : F → F → F;
  f32_norm : list F → F;
  f32_dot : list F → list F → F;
  f32_le : F → F → bool;
  f32_le_total : ∀ a b, f32_le a b = true ∨ f32_le b a = true;
  f32_le_trans : ∀ a b c, f32_le a b = true → f32_le b c = true → f32_le a c = true
}.

(** A two-dimensional array: [shape = (length mrows, ncols)]. *)
Record matrix (F : Type) : Type := Matrix { ncols : nat; mrows : list (list F) }.
Arguments Matrix {F} _ _.
Arguments ncols {F} _.
Arguments mrows {F} _.

Definition matrix_wf {F} (m : matrix F) : Prop :=
  Forall (λ r, length r = ncols m) (mrows m).

(** ** numpy primitives *)

(** The error monad of pure code that may raise. *)
#[global] Instance exn_ret : MRet (sum exn) := λ A x, inr x.
#[global] Instance exn_bind : MBind (sum exn) := λ A B f m,
  match m with inl e => inl e | inr x => f x end.
#[global] Instance exn_fmap : FMap (sum exn) := λ A B f m,
  match m with inl e => inl e | inr x => inr (f x) end.

(** [a[idx]] with an index array: [IndexError] at the first position that
    is out of range. *)
Fixpoint take_indices {A} (a : list A) (idx : list nat) : exn + list A :=
  match idx with
  | [] => inr []
  | i :: idx' =>
      match a !! i with
      | None => inl (IndexError (Z.of_nat i) (length a))
      | Some x => ys ← take_indices a idx'; mret (x :: ys)
      end
  end.

(** [ys] is [a] read at the positions [idx]. *)
Definition gathered {A} (a : list A) (idx : list nat) (ys : list A) : Prop :=
  Forall2 (λ i y, a !! i = Some y) idx ys.

(** [a[start:]]. *)
Definition slice_from {A} (a : list A) (start : Z) : list A :=
  let len := Z.of_nat (length a) in
  let s := if start <? 0 then Z.max (start + len) 0 else Z.min start len in
  drop (Z.to_nat s) a.

(** The contract of [np.argsort] and [np.argpartition] (default kinds). *)
Class NumpySort (F : Type) `{Float32 F} : Type := {
  np_argsort : list F → list nat;
  np_argsort_perm : ∀ a, np_argsort a ≡ₚ seq 0 (length a);
  np_argsort_sorted : ∀ a ys,
    gathered a (np_argsort a) ys → Sorted (λ x y, f32_le x y = true) ys;
  np_select : list F → nat → list nat;
  np_select_perm : ∀ a k, np_select a k ≡ₚ seq 0 (length a);
  np_select_kth : ∀ a k ys xk,
    gathered a (np_select a k) ys →
    ys !! k = Some xk →
    ∀ p x, ys !! p = Some x →
      ((p < k)%nat → f32_le x xk = true) ∧ ((k < p)%nat → f32_le xk x = true)
}.

(** [np.argpartition(a, kth)] for an integer [kth]: negative values count
    from the end; out of range raises unless the array is empty. *)
Definition argpartition {F} `{NumpySort F} (a : list F) (kth : Z) : exn + list nat :=
  let len := Z.of_nat (length a) in
  let k := if kth <? 0 then kth + len else kth in
  if negb (len =? 0) && ((k <? 0) || (len <=? k))
  then inl (KthOutOfBounds k (length a))
  else inr (np_select a (Z.to_nat k)).

(** ** Strings *)

Definition LF : ascii := "010"%char.
Definition nl : string := String LF "".
Definition dquote : string := String "034"%char "".

(** [sep.join(l)]. *)
Fixpoint str_join (sep : string) (l : list string) : string :=
  match l with
  | [] => ""
  | [x] => x
  | x :: l' => x +:+ sep +:+ str_join sep l'
  end.

(** ** JSON values ([json.loads] results) *)

#[local] Set Warnings "-register-all".
Inductive json : Type :=
| JNull
| JBool (b : bool)
| JNumber (lexeme : string)
| JString (s : string)
| JArray (items : list json)
| JObject (fields : list (string * json)).

(** [key in d] and [d.get(key)] on a decoded object: a later field with the
    same name overrides an earlier one. *)
Fixpoint json_get (key : string) (fields : list (string * json)) : option json :=
  match fields with
  | [] => None
  | (k, v) :: rest =>
      match json_get key rest with
      | Some v' => Some v'
      | None => if bool_decide (k = key) then Some v else None
      end
  end.

(** The digits at the start of [s] read onto [acc], their number, and the
    rest of [s]. *)
Fixpoint read_digits (s : string) (acc : Z) (count : nat) : Z * nat * string :=
  match s with
  | String c s' =>
      let n := N_of_ascii c in
      if (48 <=? n)%N && (n <=? 57)%N
      then read_digits s' (10 * acc + (Z.of_N n - 48)) (S count)
      else (acc, count, s)
  | "" => (acc, count, "")
  end.

(** Whether the number written [lexeme] is zero as Python holds it: an
    [int] for a literal without fraction and exponent, else the nearest
    [float], which is [0.0] for a literal of at most [2^-1075].  The
    literals [NaN] and [Infinity] start with no digit and are not zero. *)
Definition number_is_zero (lexeme : string) : bool :=
  let unsigned := match lexeme with String "-" s => s | _ => lexeme end in
  let '(m, int_digits, rest) := read_digits unsigned 0 0 in
  let '(m, frac_digits, rest) :=
    match rest with
    | String "." s => read_digits s m 0
    | _ => (m, 0%nat, rest)
    end in
  let exponent :=
    match rest with
    | String "e" s | String "E" s =>
        match s with
        | String "-" s' => - (read_digits s' 0 0).1.1
        | String "+" s' => (read_digits s' 0 0).1.1
        | _ => (read_digits s 0 0).1.1
        end
    | _ => 0
    end in
  let e := exponent - Z.of_nat frac_digits in
  match int_digits with
  | O => false
  | S _ => (m =? 0) || ((e <? 0) && (m * 2 ^ 1075 <=? 10 ^ (- e)))
  end.

(** [bool(v)] of a decoded value. *)
Definition py_truthy (v : json) : bool :=
  match v with
  | JNull => false
  | JBool b => b
  | JNumber lexeme => negb (number_is_zero lexeme)
  | JString s => negb (bool_decide (s = ""))
  | JArray items => negb (bool_decide (items = []))
  | JObject fields => negb (bool_decide (fields = []))
  end.

Definition backslash : string := String "092"%char "".

Definition hex_digit (n : N) : ascii :=
  ascii_of_N (if (n <? 10)%N then 48 + n else 87 + n)%N.

(** [json.dumps] of one character of a string (default [ensure_ascii]):
    printable ASCII is kept, the rest is escaped. *)
Definition json_escape_char (c : ascii) : string :=
  let n := N_of_ascii c in
  if (n =? 34)%N then backslash +:+ dquote
  else if (n =? 92)%N then backslash +:+ backslash
  else if (n =? 10)%N then backslash +:+ "n"
  else if (n =? 13)%N then backslash +:+ "r"
  else if (n =? 9)%N then backslash +:+ "t"
  else if (n =? 12)%N then backslash +:+ "f"
  else if (n =? 8)%N then backslash +:+ "b"
  else if (32 <=? n)%N && (n <=? 126)%N then String c ""
  else backslash +:+ "u00" +:+ String (hex_digit (n / 16)) (String (hex_digit (n mod 16)) "").

Fixpoint json_escape (s : string) : string :=
  match s with
  | "" => ""
  | String c s' => json_escape_char c +:+ json_escape s'
  end.

Definition json_dumps_string (s : string) : string :=
  dquote +:+ json_escape s +:+ dquote.

(** ** Records of the pipeline *)

(** A row of the corpus table: the [nid] column as [str] renders it, and
    the [flashcard_content] column. *)
Record flashcard : Type := Flashcard { row_nid : string; flashcard_content : string }.

Section Cards.
Context {F : Type}.

(** The card dictionaries, one record per stage: each stage copies the
    card of the previous one and adds its own keys. *)
Record sim_card : Type := SimCard {
  cosine_similarity_rank : nat;
  nid : string;
  cosine_similarity_score : F;
  content : string
}.

Record rel_card : Type := RelCard {
  rel_base : sim_card;
  relevance_score : F;
  relevance_rank : nat
}.

Record llm_card : Type := LlmCard {
  llm_base : rel_card;
  llm_rank : nat
}.

(** One entry of the rerank response's ["results"]. *)
Record cohere_result : Type := CohereResult { index : Z; result_score : F }.

(** [per_search_result_dictionary]; [anki_status] starts as [None]
    ([JNull]). *)
Record search_result : Type := SearchResult {
  query : string;
  similarity_top_cards_full_fat : list sim_card;
  reranked_cards : list rel_card;
  llm_prompt : string;
  llm_response : string;
  extracted_nid_list : list string;
  formatted_nids : string;
  anki_status : json;
  llm_ranked_cards : list llm_card
}.

(** [d[key] = value] for the three keys filled in after construction. *)
Definition set_formatted_nids (value : string) (d : search_result) : search_result :=
  SearchResult (query d) (similarity_top_cards_full_fat d) (reranked_cards d)
    (llm_prompt d) (llm_response d) (extracted_nid_list d) value
    (anki_status d) (llm_ranked_cards d).

Definition set_llm_ranked_cards (value : list llm_card) (d : search_result) : search_result :=
  SearchResult (query d) (similarity_top_cards_full_fat d) (reranked_cards d)
    (llm_prompt d) (llm_response d) (extracted_nid_list d) (formatted_nids d)
    (anki_status d) value.

Definition set_anki_status (value : json) (d : search_result) : search_result :=
  SearchResult (query d) (similarity_top_cards_full_fat d) (reranked_cards d)
    (llm_prompt d) (llm_response d) (extracted_nid_list d) (formatted_nids d)
    value (llm_ranked_cards d).

(** [runtime_config_dictionary]. *)
Record runtime_config : Type := RuntimeConfig {
  embeddings : matrix F;
  top_n_vectors_from_dataframe : Z;
  dataframe : list flashcard;
  num_wanted_back_from_cohere : option Z;
  personal_LLM_prompt : string;
  in_prompt_number : Z
}.

(** The external capabilities: the three network services, the spawned
    script (its standard output for a given standard input), and the two
    library functions [json.loads] ([None] for [JSONDecodeError]) and
    [str.format]. *)
Record externals : Type := Externals {
  get_embedding : string → exn + list F;
  rerank : string → list string → option Z → exn + list cohere_result;
  chat_completion : string → exn + string;
  run_anki_script : string → exn + string;
  json_loads : string → option json;
  str_format : string → Z → exn + string
}.
End Cards.
Arguments sim_card : clear implicits.
Arguments rel_card : clear implicits.
Arguments llm_card : clear implicits.
Arguments cohere_result : clear implicits.
Arguments search_result : clear implicits.
Arguments runtime_config : clear implicits.
Arguments externals : clear implicits.
Arguments SearchResult {F}.
Arguments Externals {F}.
Arguments RuntimeConfig {F}.

(** ** Effects: exceptions and the log of external calls *)

Inductive call : Type :=
| CallEmbedding (text : string)
| CallRerank (query_text : string) (documents : list string) (top_n : option Z)
| CallChat (prompt : string)
| CallAnkiScript (stdin : string).

Definition M (A : Type) : Type := list call → (exn + A) * list call.

#[global] Instance M_ret : MRet M := λ A x log, (inr x, log).
#[global] Instance M_bind : MBind M := λ A B f m log,
  match m log with
  | (inl e, log') => (inl e, log')
  | (inr x, log') => f x log'
  end.

(** Pure code that may raise. *)
Definition lift {A} (r : exn + A) : M A := λ log, (r, log).

(** An external call: logged, then its outcome. *)
Definition invoke {A} (c : call) (r : exn + A) : M A := λ log, (r, log ++ [c]).

(** [try: body except Exception as e: handler e]. *)
Definition try_except {A} (body : M A) (handler : exn → M A) : M A := λ log,
  match body log with
  | (inl e, log') => handler e log'
  | (inr x, log') => (inr x, log')
  end.

(** ** flow.py *)

Module Flow.
Section TopN.
Context {F : Type} `{NumpySort F}.

Definition normalize_query (q : list F) : list F :=
  let q_norm := f32_norm q in
  if negb (f32_eq0 q_norm) then map (λ x, f32_div x q_norm) q else q.

Definition normalize_row (r : list F) : list F :=
  let n := f32_norm r in
  let n := if f32_eq0 n then f32_one else n in
  map (λ x, f32_div x n) r.

(** [emb_normed @ query_normed]. *)
Definition similarity_scores (query : list F) (embeddings : matrix F) : list F :=
  let query_normed := normalize_query query in
  map (λ r, f32_dot (normalize_row r) query_normed) (mrows embeddings).

(** Lines 45-47: partial selection of the last [top_n_sim], then a sort of
    the selected scores, reversed. *)
Definition select_top (scores : list F) (top_n_sim : Z) : exn + (list nat * list F) :=
  part ← argpartition scores (- top_n_sim);
  let top := slice_from part (- top_n_sim) in
  keys ← take_indices scores top;
  top_indices_sim ← take_indices top (reverse (np_argsort keys));
  top_similarities ← take_indices scores top_indices_sim;
  mret (top_indices_sim, top_similarities).

Definition get_top_n_similarities_and_indices
    (query_embed : list F) (embeddings : matrix F) (top_n_sim : Z)
    : exn + (list nat * list F) :=
  if negb (length query_embed =? ncols embeddings)%nat
  then inl (DimensionMismatch (length query_embed) (ncols embeddings))
  else select_top (similarity_scores query_embed embeddings) top_n_sim.

(** [enumerate(zip(top_indices_sim, top_similarities), 1)] over the rows
    [dataframe.iloc[top_index_sim]]. *)
Fixpoint prepare_top_cards_from (cosine_similarity_rank : nat)
    (pairs : list (nat * F)) (dataframe : list flashcard)
    : exn + list (sim_card F) :=
  match pairs with
  | [] => inr []
  | (top_index_sim, similarity) :: rest =>
      match dataframe !! top_index_sim with
      | None => inl (IndexError (Z.of_nat top_index_sim) (length dataframe))
      | Some row =>
          cards ← prepare_top_cards_from (S cosine_similarity_rank) rest dataframe;
          mret (SimCard cosine_similarity_rank (row_nid row) similarity
                  (flashcard_content row) :: cards)
      end
  end.

Definition prepare_top_cards_list (top_indices_sim : list nat)
    (top_similarities : list F) (dataframe : list flashcard)
    : exn + list (sim_card F) :=
  prepare_top_cards_from 1 (zip top_indices_sim top_similarities) dataframe.

Definition card_line (c : rel_card F) : string :=
  "- [nid:" +:+ nid (rel_base c) +:+ "] " +:+ content (rel_base c) +:+ nl.

Definition format_flashcard_results_for_llm (header_that_is_prompt query_text : string)
    (reranked_cards : list (rel_card F)) : string :=
  let output_to_llm := "# Prompt" +:+ nl +:+ header_that_is_prompt +:+ nl +:+ nl in
  let output_to_llm := output_to_llm +:+ "## Query" +:+ nl +:+ query_text +:+ nl +:+ nl in
  let output_to_llm := output_to_llm +:+ "## Flashcard Pool" +:+ nl in
  foldl (λ out c, out +:+ card_line c) output_to_llm reranked_cards.

(** The provider's exception is absorbed here and becomes the text
    ["Error: <e>"]. *)
Definition chat_with_final_llm (ext : externals F) (llm_prompt : string) : M string :=
  try_except
    (invoke (CallChat llm_prompt) (chat_completion ext llm_prompt))
    (λ e, mret ("Error: " +:+ exn_str e)).
End TopN.
End Flow.

(** ** rerank.py *)

Module Rerank.
Section Rerank.
Context {F : Type}.

(** [cohere_pre_rank_index]: position in the similarity list to card. *)
Fixpoint pre_rank_index_from (i : nat) (cards : list (sim_card F))
    (cohere_pre_rank_index : gmap Z (sim_card F)) : gmap Z (sim_card F) :=
  match cards with
  | [] => cohere_pre_rank_index
  | full_dictionary_single_card :: rest =>
      pre_rank_index_from (S i) rest
        (<[Z.of_nat i := full_dictionary_single_card]> cohere_pre_rank_index)
  end.

Definition prepare_for_cohere (similarity_top_cards_full_fat : list (sim_card F))
    : list string * gmap Z (sim_card F) :=
  (map content similarity_top_cards_full_fat,
   pre_rank_index_from 0 similarity_top_cards_full_fat ∅).

(** [list.sort(key=...)]: a stable sort, here by insertion. *)
Fixpoint insert_by_key {A} (key : A → nat) (x : A) (l : list A) : list A :=
  match l with
  | [] => [x]
  | y :: l' =>
      if (key y <=? key x)%nat then y :: insert_by_key key x l' else x :: l
  end.

Definition sort_by_key {A} (key : A → nat) (l : list A) : list A :=
  foldl (λ sorted x, insert_by_key key x sorted) [] l.

(** The loop over [enumerate(cohere_response["results"], start=1)]: a
    result whose index is not a key of the mapping raises [KeyError],
    which is caught, and the loop continues with the next rank. *)
Fixpoint reconstruct_loop (relevance_rank : nat) (results : list (cohere_result F))
    (cohere_pre_rank_index : gmap Z (sim_card F)) : list (rel_card F) :=
  match results with
  | [] => []
  | cohere_result :: rest =>
      match cohere_pre_rank_index !! index cohere_result with
      | Some original_card =>
          RelCard original_card (result_score cohere_result) relevance_rank
            :: reconstruct_loop (S relevance_rank) rest cohere_pre_rank_index
      | None => reconstruct_loop (S relevance_rank) rest cohere_pre_rank_index
      end
  end.

Definition reconstruct_from_cohere (cohere_response : list (cohere_result F))
    (cohere_pre_rank_index : gmap Z (sim_card F)) : list (rel_card F) :=
  sort_by_key relevance_rank (reconstruct_loop 1 cohere_response cohere_pre_rank_index).

(** [top_n=num_wanted_back_from_cohere if num_wanted_back_from_cohere else None]. *)
Definition top_n_argument (num_wanted_back_from_cohere : option Z) : option Z :=
  match num_wanted_back_from_cohere with
  | Some n => if n =? 0 then None else Some n
  | None => None
  end.

(** The outer [try ... except Exception: raise] re-raises unchanged. *)
Definition rerank_workflow (ext : externals F) (query_text : string)
    (similarity_top_cards_full_fat : list (sim_card F))
    (num_wanted_back_from_cohere : option Z) : M (list (rel_card F)) :=
  try_except
    (match similarity_top_cards_full_fat with
     | [] => mret []
     | _ :: _ =>
         let '(content_list, pre_rank_index) :=
           prepare_for_cohere similarity_top_cards_full_fat in
         let top_n := top_n_argument num_wanted_back_from_cohere in
         cohere_response ←
           invoke (CallRerank query_text content_list top_n)
                  (rerank ext query_text content_list top_n);
         mret (reconstruct_from_cohere cohere_response pre_rank_index)
     end)
    (λ e, lift (inl e)).
End Rerank.
End Rerank.

(** ** core.py *)

Module Core.
Section Core.
Context {F : Type} `{NumpySort F}.

(** *** Anki stuff *)

(** The first guard of the source (an empty dictionary, or one without the
    key ['extracted_nid_list']) cannot fire on a record, which always
    carries the key. *)
Definition format_nids_for_anki (per_search_result_dictionary : search_result F)
    : search_result F :=
  let d := per_search_result_dictionary in
  let nids := extracted_nid_list d in
  match nids with
  | [] => set_formatted_nids "" d
  | _ :: _ => set_formatted_nids ("nid:" +:+ str_join "," nids) d
  end.

(** [json.dumps({"formatted_nids": formatted_nids})]. *)
Definition stdin_payload (formatted_nids : string) : string :=
  "{" +:+ json_dumps_string "formatted_nids" +:+ ": " +:+
  json_dumps_string formatted_nids +:+ "}".

(** What the inner [try] makes of the script's standard output. *)
Definition parse_script_output (ext : externals F) (stdout : string) : json :=
  match json_loads ext stdout with
  | None => JString "Error: Invalid response format from script"
  | Some (JObject response) =>
      match json_get "anki_status" response with
      | Some status => status
      | None => JString "Error: Invalid response structure from script"
      end
  | Some _ => JString "Error: Invalid response structure from script"
  end.

Definition check_anki_status (ext : externals F)
    (per_search_result_dictionary : option (search_result F)) : M json :=
  try_except
    (let formatted_nids :=
       match per_search_result_dictionary with
       | Some d => formatted_nids d
       | None => ""
       end in
     let payload := stdin_payload formatted_nids in
     stdout ← invoke (CallAnkiScript payload) (run_anki_script ext payload);
     mret (parse_script_output ext stdout))
    (λ e, mret (JString ("Error checking Anki: " +:+ exn_str e))).

(** *** LLM_rank stuff *)

Definition is_digit (c : ascii) : bool :=
  let n := N_of_ascii c in (48 <=? n)%N && (n <=? 57)%N.

Fixpoint strip_prefix (p s : string) : option string :=
  match p, s with
  | "", _ => Some s
  | String a p', String b s' => if bool_decide (a = b) then strip_prefix p' s' else None
  | String _ _, "" => None
  end.

(** [\d{k}]: exactly [k] digits, and the rest of the text. *)
Fixpoint take_digits (k : nat) (s : string) : option (string * string) :=
  match k, s with
  | O, _ => Some ("", s)
  | S k', String c s' =>
      if is_digit c
      then '(digits, rest) ← take_digits k' s'; Some (String c digits, rest)
      else None
  | S _, "" => None
  end.

(** A match of [\[nid:(\d{13})\]] at the start of [s]: its group. *)
Definition match_nid (s : string) : option string :=
  rest ← strip_prefix "[nid:" s;
  '(digits, rest) ← take_digits 13 rest;
  _ ← strip_prefix "]" rest;
  Some digits.

(** [re.findall]: leftmost matches, the scan resuming after each match
    ([skip] characters of the last match are still to be passed). *)
Fixpoint findall_nid (skip : nat) (text : string) : list string :=
  match text with
  | "" => []
  | String _ text' =>
      match skip with
      | S skip' => findall_nid skip' text'
      | O =>
          match match_nid text with
          | Some digits => digits :: findall_nid 18 text'
          | None => findall_nid 0 text'
          end
      end
  end.

Definition extract_nid (text : string) : list string := findall_nid 0 text.

(** [{card["nid"]: card for card in reranked_cards}]: a later card
    replaces an earlier one with the same nid. *)
Definition nid_to_card_of (reranked_cards : list (rel_card F)) : gmap string (rel_card F) :=
  foldl (λ m card, <[nid (rel_base card) := card]> m) ∅ reranked_cards.

(** The loop over [enumerate(extracted_nids, 1)]. *)
Fixpoint llm_rank_loop (rank : nat) (extracted_nids : list string)
    (nid_to_card : gmap string (rel_card F)) : list (llm_card F) :=
  match extracted_nids with
  | [] => []
  | nid :: rest =>
      match nid_to_card !! nid with
      | Some card => LlmCard card rank :: llm_rank_loop (S rank) rest nid_to_card
      | None => llm_rank_loop (S rank) rest nid_to_card
      end
  end.

Definition create_llm_ranked_cards (reranked_cards : list (rel_card F))
    (extracted_nids : list string) : list (llm_card F) :=
  llm_rank_loop 1 extracted_nids (nid_to_card_of reranked_cards).

(** *** Search meat *)

(** The body of the [try] block of [search_flashcards]. *)
Definition search_body (ext : externals F) (runtime_config_dictionary : runtime_config F)
    (query_text : string) : M (search_result F) :=
  let cfg := runtime_config_dictionary in
  query_embed ← invoke (CallEmbedding query_text) (get_embedding ext query_text);
  '(top_indices_sim, top_similarities) ←
    lift (Flow.get_top_n_similarities_and_indices query_embed (embeddings cfg)
            (top_n_vectors_from_dataframe cfg));
  similarity_top_cards_full_fat ←
    lift (Flow.prepare_top_cards_list top_indices_sim top_similarities (dataframe cfg));
  reranked_cards ←
    Rerank.rerank_workflow ext query_text similarity_top_cards_full_fat
      (num_wanted_back_from_cohere cfg);
  header_that_is_prompt ←
    lift (str_format ext (personal_LLM_prompt cfg) (in_prompt_number cfg));
  let llm_prompt :=
    Flow.format_flashcard_results_for_llm header_that_is_prompt query_text reranked_cards in
  back_from_chatgpt ← Flow.chat_with_final_llm ext llm_prompt;
  let extracted_nids := extract_nid back_from_chatgpt in
  let d := SearchResult query_text similarity_top_cards_full_fat reranked_cards
             llm_prompt back_from_chatgpt extracted_nids "" JNull [] in
  let d := format_nids_for_anki d in
  let d := set_llm_ranked_cards (create_llm_ranked_cards reranked_cards extracted_nids) d in
  status ← check_anki_status ext (Some d);
  mret (set_anki_status status d).

(** Any exception of the body is caught and [None] is returned. *)
Definition search_flashcards (ext : externals F) (runtime_config_dictionary : runtime_config F)
    (query_text : string) : M (option (search_result F)) :=
  try_except
    (d ← search_body ext runtime_config_dictionary query_text; mret (Some d))
    (λ _, mret None).
End Core.
End Core.

(** ** anki_script.py *)

Module AnkiScript.

(** What the script observes of its host: [platform.system()], whether
    the process ["anki"] runs, the version AnkiConnect answers ([None] when
    the probe fails), whether the window could be focused, and whether
    AnkiConnect accepts a [guiBrowse] request for a query: for a query
    string, and for a query that is another JSON value. *)
Record host : Type := Host {
  platform_system : string;
  anki_running : bool;
  anki_connect_version : option Z;
  window_focused : bool;
  gui_browse : string → bool;
  gui_browse_value : json → bool
}.

(** The dictionary printed on standard output. *)
Record response : Type := Response {
  r_anki_status : string;
  r_success : bool;
  r_message : string
}.

Definition populate_anki_browser (h : host) (query_text : string) : bool :=
  if bool_decide (query_text = "") then false else gui_browse h query_text.

(** [populate_anki_browser] on whatever [input_data.get] returned: the
    test [if not query] is Python's truth value of the argument. *)
Definition populate_anki_browser_value (h : host) (query_value : json) : bool :=
  match query_value with
  | JString query_text => populate_anki_browser h query_text
  | _ => if negb (py_truthy query_value) then false else gui_browse_value h query_value
  end.

(** The body of [main] after the input is read; [populated] is what
    [populate_anki_browser(built_nid_list)] returns. *)
Definition main_with (h : host) (populated : bool) : response :=
  let system := platform_system h in
  if negb (bool_decide (system = "Darwin") || bool_decide (system = "Windows"))
  then Response "myy_error" false ("Unsupported operating system: " +:+ system)
  else if anki_running h then
    match anki_connect_version h with
    | None => Response "Anki is running" false "Failed to contact AnkiConnect"
    | Some _ =>
        if window_focused h && populated
        then Response "Anki is running" true "Successfully opened Anki browser with query"
        else Response "Anki is running" false "Failed to focus/populate Anki"
    end
  else Response "Anki not running" false "Anki is not running".

(** [main], from the identifier query read on standard input to the
    dictionary it prints: for a query that is a string, and for any value
    found under the key. *)
Definition main (h : host) (built_nid_list : string) : response :=
  main_with h (populate_anki_browser h built_nid_list).

Definition main_value (h : host) (built_nid_list : json) : response :=
  main_with h (populate_anki_browser_value h built_nid_list).

Definition json_dumps_bool (b : bool) : string := if b then "true" else "false".

(** [json.dumps(result)]. *)
Definition dumps_response (r : response) : string :=
  "{" +:+ json_dumps_string "anki_status" +:+ ": " +:+ json_dumps_string (r_anki_status r)
  +:+ ", " +:+ json_dumps_string "success" +:+ ": " +:+ json_dumps_bool (r_success r)
  +:+ ", " +:+ json_dumps_string "message" +:+ ": " +:+ json_dumps_string (r_message r)
  +:+ "}".

(** [read_input_data]: no input, or input that does not decode, counts as
    the dictionary with an empty query; anything that decodes is returned
    as it is, a dictionary or not. *)
Definition read_input_data (loads : string → option json) (raw : string) : json :=
  let fallback := JObject [("formatted_nids", JString "")] in
  if bool_decide (raw = "") then fallback
  else match loads raw with
       | None => fallback
       | Some input_data => input_data
       end.

(** [input_data.get("formatted_nids", "")]: the value under the key, of
    whatever type, or the empty string; [None] stands for the
    [AttributeError] raised when [input_data] is no dictionary, which
    nothing catches. *)
Definition get_formatted_nids (input_data : json) : option json :=
  match input_data with
  | JObject fields =>
      match json_get "formatted_nids" fields with
      | None => Some (JString "")
      | Some built_nid_list => Some built_nid_list
      end
  | _ => None
  end.

(** The spawned process: standard input to standard output.  After the
    uncaught exception nothing is printed. *)
Definition process (loads : string → option json) (h : host) (stdin : string) : string :=
  match get_formatted_nids (read_input_data loads stdin) with
  | Some built_nid_list => dumps_response (main_value h built_nid_list) +:+ nl
  | None => ""
  end.

(** [str.isdigit] on a character below 256: the ASCII digits and the
    superscripts one, two and three. *)
Definition py_isdigit (c : ascii) : bool :=
  let n := N_of_ascii c in
  ((48 <=? n)%N && (n <=? 57)%N) || (n =? 178)%N || (n =? 179)%N || (n =? 185)%N.

Fixpoint any_isdigit (s : string) : bool :=
  match s with
  | "" => false
  | String c s' => py_isdigit c || any_isdigit s'
  end.

(** [bool(query) and query.startswith("nid:") and any(c.isdigit() ...)]. *)
Definition validate_nids_query (query_text : string) : bool :=
  negb (bool_decide (query_text = ""))
  && bool_decide (is_Some (Core.strip_prefix "nid:" query_text))
  && any_isdigit query_text.
End AnkiScript.

(** ** interface.py: the progress timeline *)

Module Interface.

(** [part.split(" (")[0]]: the text before the first [" ("], all of it
    when there is none. *)
Fixpoint split_root (part : string) : string :=
  match part with
  | "" => ""
  | String c rest => if String.prefix " (" part then "" else String c (split_root rest)
  end.

(** [SearchProgressHandler._add] on the list [self.parts], which starts
    empty; the display is refreshed from the list after an append. *)
Definition add (parts : list string) (part : string) : list string :=
  let root := split_root part in
  if negb (existsb (λ p, String.prefix root p) parts) then parts ++ [part] else parts.

End Interface.

(** ** A decoder for the JSON texts the bridge exchanges

    Objects, arrays, strings with the two-character escapes, integers and
    the three literals; anything else is rejected. *)

Module JsonText.

Definition is_ws (c : ascii) : bool :=
  let n := N_of_ascii c in (n =? 32)%N || (n =? 9)%N || (n =? 10)%N || (n =? 13)%N.

Fixpoint skip_ws (s : string) : string :=
  match s with
  | String c s' => if is_ws c then skip_ws s' else s
  | "" => ""
  end.

Definition unescape (c : ascii) : option ascii :=
  let n := N_of_ascii c in
  if (n =? 34)%N then Some c
  else if (n =? 92)%N then Some c
  else if (n =? 47)%N then Some c
  else if (n =? 110)%N then Some "010"%char
  else if (n =? 114)%N then Some "013"%char
  else if (n =? 116)%N then Some "009"%char
  else if (n =? 98)%N then Some "008"%char
  else if (n =? 102)%N then Some "012"%char
  else None.

(** After the opening quote: the decoded string and what follows the
    closing quote. *)
Fixpoint string_body (s : string) : option (string * string) :=
  match s with
  | "" => None
  | String c s' =>
      let n := N_of_ascii c in
      if (n =? 34)%N then Some ("", s')
      else if (n =? 92)%N then
        match s' with
        | String e s'' =>
            c' ← unescape e;
            '(body, rest) ← string_body s'';
            Some (String c' body, rest)
        | "" => None
        end
      else if (n <? 32)%N then None
      else '(body, rest) ← string_body s'; Some (String c body, rest)
  end.

Fixpoint digits_of (s : string) : string * string :=
  match s with
  | String c s' =>
      if (48 <=? N_of_ascii c)%N && (N_of_ascii c <=? 57)%N
      then let '(d, rest) := digits_of s' in (String c d, rest)
      else ("", s)
  | "" => ("", "")
  end.

(** An optional minus sign, then 0 or a numeral without leading zero;
    not followed by a fraction or an exponent. *)
Definition integer (s : string) : option (string * string) :=
  let '(sign, s1) :=
    match s with
    | String "-" s' => ("-", s')
    | _ => ("", s)
    end in
  let '(d, rest) := digits_of s1 in
  match d with
  | "" => None
  | String "0" (String _ _) => None
  | _ =>
      match rest with
      | String "." _ | String "e" _ | String "E" _ => None
      | _ => Some (sign +:+ d, rest)
      end
  end.

Fixpoint value (fuel : nat) (s : string) : option (json * string) :=
  match fuel with
  | O => None
  | S fuel =>
      match skip_ws s with
      | String "{" rest =>
          match skip_ws rest with
          | String "}" rest' => Some (JObject [], rest')
          | _ => '(fields, rest') ← members fuel rest; Some (JObject fields, rest')
          end
      | String "[" rest =>
          match skip_ws rest with
          | String "]" rest' => Some (JArray [], rest')
          | _ => '(items, rest') ← elements fuel rest; Some (JArray items, rest')
          end
      | String "034" rest => '(str, rest') ← string_body rest; Some (JString str, rest')
      | String "t" (String "r" (String "u" (String "e" rest))) => Some (JBool true, rest)
      | String "f" (String "a" (String "l" (String "s" (String "e" rest)))) =>
          Some (JBool false, rest)
      | String "n" (String "u" (String "l" (String "l" rest))) => Some (JNull, rest)
      | number => '(lexeme, rest) ← integer number; Some (JNumber lexeme, rest)
      end
  end
with members (fuel : nat) (s : string) : option (list (string * json) * string) :=
  match fuel with
  | O => None
  | S fuel =>
      match skip_ws s with
      | String "034" rest =>
          '(key, rest) ← string_body rest;
          match skip_ws rest with
          | String ":" rest =>
              '(v, rest) ← value fuel rest;
              match skip_ws rest with
              | String "," rest =>
                  '(fields, rest) ← members fuel rest; Some ((key, v) :: fields, rest)
              | String "}" rest => Some ([(key, v)], rest)
              | _ => None
              end
          | _ => None
          end
      | _ => None
      end
  end
with elements (fuel : nat) (s : string) : option (list json * string) :=
  match fuel with
  | O => None
  | S fuel =>
      '(v, rest) ← value fuel s;
      match skip_ws rest with
      | String "," rest => '(items, rest) ← elements fuel rest; Some (v :: items, rest)
      | String "]" rest => Some ([v], rest)
      | _ => None
      end
  end.

(** One value, surrounded by white space only. *)
Definition loads (s : string) : option json :=
  '(v, rest) ← value (S (String.length s)) s;
  match skip_ws rest with
  | "" => Some v
  | _ => None
  end.
End JsonText.

(** * Notions the properties are stated with

    Readings of the design document's words, the auxiliary notions of the
    proofs, a concrete [float32] and numpy on which the code runs, and the
    inputs of the examples. *)

Import Flow Rerank Core.

(** ** Readings of the design document *)

(** The query string as the design document words it: a prefix, then the
    identifiers separated by commas; nothing at all for no identifier. *)
Definition identifier_query (prefix : string) (ids : list string) : string :=
  match ids with
  | [] => ""
  | v1 :: rest => prefix +:+ v1 +:+ foldr (λ v acc, "," +:+ v +:+ acc) "" rest
  end.

Fixpoint all_digits (s : string) : bool :=
  match s with
  | "" => true
  | String c s' => is_digit c && all_digits s'
  end.

(** The bracketed token that starts at position [i] of [text], if there is
    one: ["[<label>:"], then exactly [width] digits, then ["]"]. *)
Definition token_at (label : string) (width : nat) (text : string) (i : nat)
    : option string :=
  let digits := substring (i + String.length label + 2) width text in
  if bool_decide (substring i (String.length label + width + 3) text
                  = "[" +:+ label +:+ ":" +:+ digits +:+ "]")
     && (String.length digits =? width)%nat && all_digits digits
  then Some digits else None.

(** The identifiers of all tokens of [text], by position: in order of
    appearance, a repeated token listed each time. *)
Definition tokens_in (label : string) (width : nat) (text : string) : list string :=
  omap (token_at label width text) (seq 0 (String.length text)).

(** A 13-digit identifier. *)
Definition is_nid (s : string) : Prop := String.length s = 13%nat ∧ all_digits s = true.


Section Readings.
Context {F : Type} `{NumpySort F}.

(** What one extracted identifier contributes: the card it resolves to,
    ranked with the identifier's own position. *)
Definition llm_entry (m : gmap string (rel_card F)) (entry : nat * string)
    : option (llm_card F) :=
  (λ card, LlmCard card entry.1) <$> m !! entry.2.

(** What one provider result contributes: the source card at its index,
    with the provider's score and the result's own position. *)
Definition rel_entry (idx : gmap Z (sim_card F)) (entry : nat * cohere_result F) : option (rel_card F) :=
  (λ card, RelCard card (result_score entry.2) entry.1) <$> idx !! index entry.2.

(** Non-increasing order of scores. *)
Definition descending (sims : list F) : Prop := Sorted (λ x y, f32_le y x = true) sims.

(** Among adjacent results with equal scores, the smaller corpus index
    comes first. *)
Definition ties_ascending (idx : list nat) (sims : list F) : Prop :=
  ∀ p i j x y,
    idx !! p = Some i → idx !! S p = Some j →
    sims !! p = Some x → sims !! S p = Some y →
    f32_le x y = true → (i < j)%nat.

End Readings.

(** ** Auxiliary notions *)

(** The matches at every position, overlapping or not. *)
Fixpoint occurrences (text : string) : list string :=
  match text with
  | "" => []
  | String _ text' => option_list (match_nid text) ++ occurrences text'
  end.

(** No match starts at any of the first [k] positions. *)
Fixpoint no_match_prefix (k : nat) (s : string) : Prop :=
  match k, s with
  | S k', String _ s' => match_nid s = None ∧ no_match_prefix k' s'
  | _, _ => True
  end.

(** The character [c] does not occur in [s]. *)
Fixpoint avoids (c : ascii) (s : string) : Prop :=
  match s with
  | "" => True
  | String c' s' => c' ≠ c ∧ avoids c s'
  end.

Abbreviation bracket_free := (avoids "["%char).

(** A character that no token contains. *)
Definition breaker (c : ascii) : Prop := avoids c "[nid:]" ∧ is_digit c = false.

(** The platforms the script knows how to drive. *)
Definition supported_platform (h : AnkiScript.host) : Prop :=
  AnkiScript.platform_system h = "Darwin" ∨ AnkiScript.platform_system h = "Windows".

Section Auxiliary.
Context {F : Type} `{NumpySort F}.
Implicit Types (ext : externals F) (cfg : runtime_config F).

(** What the line of a card contributes to an extraction: its identifier,
    then the tokens of its content. *)
Definition card_tokens (card : rel_card F) : list string :=
  nid (rel_base card) :: tokens_in "nid" 13 (content (rel_base card)).

(** The lines of the flashcard pool. *)
Definition card_lines (cards : list (rel_card F)) : string := foldr (λ card acc, card_line card +:+ acc) "" cards.

(** The position [np.argpartition] is asked to fix, and the start of the
    slice, for a request of [n] results out of [len]. *)
Definition pivot (len : nat) (n : Z) : nat :=
  if n =? 0 then 0%nat else (len - Z.to_nat n)%nat.

(** The text the generation stage hands on: the provider's answer, or
    the error text when the provider raised. *)
Definition generated_text ext (prompt : string) : string :=
  match chat_completion ext prompt with
  | inl e => "Error: " +:+ exn_str e
  | inr answer => answer
  end.

(** The status the bridge reports for a standard input. *)
Definition bridge_status ext (payload : string) : json :=
  match run_anki_script ext payload with
  | inl e => JString ("Error checking Anki: " +:+ exn_str e)
  | inr stdout => parse_script_output ext stdout
  end.

Definition payload_of (per_search_result_dictionary : option (search_result F)) : string :=
  stdin_payload (match per_search_result_dictionary with
                 | Some d => formatted_nids d
                 | None => ""
                 end).

(** The aggregate before the bridge is consulted. *)
Definition aggregate (query_text : string) (cards : list (sim_card F))
    (reranked : list (rel_card F)) (prompt answer : string) : search_result F :=
  set_llm_ranked_cards (create_llm_ranked_cards reranked (extract_nid answer))
    (format_nids_for_anki
       (SearchResult query_text cards reranked prompt answer (extract_nid answer) "" JNull [])).

(** The stages of the search up to the prompt. *)
Definition search_stages ext cfg (query_text : string)
    : M (list (sim_card F) * list (rel_card F) * string) :=
  query_embed ← invoke (CallEmbedding query_text) (get_embedding ext query_text);
  '(top_indices_sim, top_similarities) ←
    lift (get_top_n_similarities_and_indices query_embed (embeddings cfg)
            (top_n_vectors_from_dataframe cfg));
  cards ← lift (prepare_top_cards_list top_indices_sim top_similarities (dataframe cfg));
  reranked ← rerank_workflow ext query_text cards (num_wanted_back_from_cohere cfg);
  header ← lift (str_format ext (personal_LLM_prompt cfg) (in_prompt_number cfg));
  mret (cards, reranked, format_flashcard_results_for_llm header query_text reranked).

(** The same services with another script and another [json.loads]. *)
Definition with_bridge ext (run_script : string → exn + string)
    (loads : string → option json) : externals F :=
  Externals (get_embedding ext) (rerank ext) (chat_completion ext) run_script loads
    (str_format ext).

End Auxiliary.

(** ** IEEE 754 binary32 *)

Definition binary32 : Type := spec_float.

Definition b32_zero : binary32 := S754_zero false.
Definition b32_one : binary32 := S754_finite false 8388608 (-23).
Definition b32_two : binary32 := S754_finite false 8388608 (-22).
Definition b32_add : binary32 → binary32 → binary32 := SFadd 24 128.
Definition b32_mul : binary32 → binary32 → binary32 := SFmul 24 128.
Definition b32_div : binary32 → binary32 → binary32 := SFdiv 24 128.
Definition b32_sqrt : binary32 → binary32 := SFsqrt 24 128.
Definition b32_eq0 (x : binary32) : bool := SFeqb x b32_zero.

(** Sums are taken from left to right. *)
Definition b32_norm (v : list binary32) : binary32 :=
  b32_sqrt (foldl (λ acc x, b32_add acc (b32_mul x x)) b32_zero v).

Definition b32_dot (u v : list binary32) : binary32 :=
  foldl (λ acc xy, b32_add acc (b32_mul xy.1 xy.2)) b32_zero (zip u v).

Definition b32_is_nan (x : binary32) : bool :=
  match x with S754_nan => true | _ => false end.

(** The [<] numpy sorts floats by: NaN is greater than everything else. *)
Definition b32_lt (x y : binary32) : bool :=
  SFltb x y || (b32_is_nan y && negb (b32_is_nan x)).

Definition b32_le (x y : binary32) : bool := negb (b32_lt y x).

(** A rank that orders the values as [b32_lt] does. *)
Definition b32_key (x : binary32) : Z * Z * Z :=
  match x with
  | S754_nan => (3, 0, 0)
  | S754_infinity true => (-2, 0, 0)
  | S754_infinity false => (2, 0, 0)
  | S754_zero _ => (0, 0, 0)
  | S754_finite true m e => (-1, - e, - Z.pos m)
  | S754_finite false m e => (1, e, Z.pos m)
  end.

Definition key_lt (a b : Z * Z * Z) : Prop :=
  a.1.1 < b.1.1 ∨ (a.1.1 = b.1.1 ∧ (a.1.2 < b.1.2 ∨ (a.1.2 = b.1.2 ∧ a.2 < b.2))).

(** ** A stable index sort

    Insertion from the left, an element going behind the elements that are
    not greater: the order in which numpy's default sort leaves a short
    array.  The same sort serves as partial selection (a fully sorted array
    is in particular partitioned around every position). *)

Section StableSortDefs.
Context {F : Type} `{Float32 F}.
Implicit Types (p q : nat * F) (l sorted : list (nat * F)) (a : list F).

Fixpoint insert_pair p sorted : list (nat * F) :=
  match sorted with
  | [] => [p]
  | q :: rest => if f32_le q.2 p.2 then q :: insert_pair p rest else p :: sorted
  end.

Definition sort_pairs l : list (nat * F) := foldl (λ sorted p, insert_pair p sorted) [] l.

Definition stable_argsort a : list nat := (sort_pairs (zip (seq 0 (length a)) a)).*1.

Definition pair_le p q : Prop := f32_le p.2 q.2 = true.

End StableSortDefs.

(** ** Inputs of the examples *)

Definition two_rel_cards : list (rel_card unit) :=
  [RelCard (SimCard 1 "456" () "B") () 1; RelCard (SimCard 2 "123" () "A") () 2].

Definition two_sim_cards : list (sim_card unit) :=
  [SimCard 1 "456" () "B"; SimCard 2 "123" () "A"].

Definition pool_cards : list (rel_card unit) :=
  [RelCard (SimCard 2 "1700000000002" () "Mitral valve: between left atrium and ventricle") () 1;
   RelCard (SimCard 1 "1700000000001" () "Aortic valve [three cusps]") () 2].

(** Two identical rows, and a query along them: both similarities are 1. *)
Definition tied_matrix : matrix binary32 := Matrix 1 [[b32_one]; [b32_one]].

(** Three rows at 0, 90 and 45 degrees from the query [(1, 0)]. *)
Definition fan_matrix : matrix binary32 :=
  Matrix 2 [[b32_one; b32_zero]; [b32_zero; b32_one]; [b32_one; b32_one]].

Definition demo_config : runtime_config binary32 :=
  RuntimeConfig fan_matrix 2
    [Flashcard "1700000000001" "Aortic valve"; Flashcard "1700000000002" "Mitral valve";
     Flashcard "1700000000003" "Tricuspid valve"]
    None "Pick the best cards." 1.

(** A rerank provider that returns the documents in reverse order. *)
Definition reversing_rerank (query_text : string) (documents : list string)
    (top_n : option Z) : exn + list (cohere_result binary32) :=
  inr (reverse (imap (λ i _, CohereResult (Z.of_nat i) b32_one) documents)).

(** The embedding is the fixed vector [(1, 0)]; the template has no
    replacement field, so [str.format] returns it as it is; the script runs
    on a host, with the decoder of [JsonText] on both sides of the pipe. *)
Definition demo_services (chat : string → exn + string) (h : AnkiScript.host)
    : externals binary32 :=
  Externals (λ _, inr [b32_one; b32_zero]) reversing_rerank chat
    (λ stdin, inr (AnkiScript.process JsonText.loads h stdin))
    JsonText.loads (λ template _, inr template).

Definition mac_with_anki : AnkiScript.host :=
  AnkiScript.Host "Darwin" true (Some 6) true (λ _, true) (λ _, true).


Definition linux_host : AnkiScript.host :=
  AnkiScript.Host "Linux" false None false (λ _, false) (λ _, false).

Definition demo_prompt : string :=
  "# Prompt" +:+ nl +:+ "Pick the best cards." +:+ nl +:+ nl +:+
  "## Query" +:+ nl +:+ "valves" +:+ nl +:+ nl +:+
  "## Flashcard Pool" +:+ nl +:+
  "- [nid:1700000000003] Tricuspid valve" +:+ nl +:+
  "- [nid:1700000000001] Aortic valve" +:+ nl.

Definition demo_sim_cards : list (sim_card binary32) :=
  [SimCard 1 "1700000000001" b32_one "Aortic valve";
   SimCard 2 "1700000000003" (S754_finite false 11863283 (-24)) "Tricuspid valve"].

Definition demo_rel_cards : list (rel_card binary32) :=
  [RelCard (SimCard 2 "1700000000003" (S754_finite false 11863283 (-24)) "Tricuspid valve")
     b32_one 1;
   RelCard (SimCard 1 "1700000000001" b32_one "Aortic valve") b32_one 2].

Definition failing_chat (prompt : string) : exn + string :=
  inl (ServiceError "Connection error.").

(** A script whose standard output is no JSON text. *)
Definition broken_script_services : externals binary32 :=
  with_bridge (demo_services (λ _, inr "Best: [nid:1700000000001].") mac_with_anki)
    (λ _, inr "not json") JsonText.loads.

(** Aggregates as they are before the identifier query is built. *)
Definition one_id_result : search_result unit :=
  SearchResult "q" [] [] "" "Use [nid:1700000000001]." ["1700000000001"] "" JNull [].

Definition no_id_result : search_result unit :=
  SearchResult "q" [] [] "" "None fits." [] "" JNull [].

(** * Properties *)

(** ** The identifier query string (core.py, [format_nids_for_anki]) *)

Lemma append_cons (x : ascii) (a b : string) : String x a +:+ b = String x (a +:+ b).
Proof. reflexivity. Qed.

Lemma append_nil_l (b : string) : "" +:+ b = b.
Proof. reflexivity. Qed.

Lemma append_assoc (a b c : string) : (a +:+ b) +:+ c = a +:+ (b +:+ c).
Proof.
  induction a as [|x a' IH]; [done|].
  rewrite !append_cons. by f_equal.
Qed.

Lemma append_nil_r (a : string) : a +:+ "" = a.
Proof.
  induction a as [|x a' IH]; [done|].
  rewrite append_cons. by f_equal.
Qed.

Lemma length_append (a b : string) :
  String.length (a +:+ b) = (String.length a + String.length b)%nat.
Proof.
  induction a as [|x a' IH]; [done|].
  rewrite append_cons. simpl. by f_equal.
Qed.

Lemma str_join_cons sep v rest :
  str_join sep (v :: rest) = v +:+ foldr (λ w acc, sep +:+ w +:+ acc) "" rest.
Proof.
  revert v. induction rest as [|w rest IH]; intros v.
  - simpl. by rewrite append_nil_r.
  - change (str_join sep (v :: w :: rest)) with (v +:+ sep +:+ str_join sep (w :: rest)).
    rewrite IH. done.
Qed.

Section FormatNids.
Context {F : Type}.
Implicit Types d : search_result F.

(** C6, as the code has it: the serialized query is ["nid:"] followed by
    the identifiers joined with commas, and the empty string (never a bare
    prefix) for the empty list; the other keys are left as they were. *)
Theorem format_nids_for_anki_query d :
  formatted_nids (format_nids_for_anki d) = identifier_query "nid:" (extracted_nid_list d)
  ∧ (formatted_nids (format_nids_for_anki d) = "" ↔ extracted_nid_list d = [])
  ∧ format_nids_for_anki d = set_formatted_nids (formatted_nids (format_nids_for_anki d)) d.
Proof.
  unfold format_nids_for_anki.
  destruct (extracted_nid_list d) as [|v rest] eqn:Hnids.
  - done.
  - split; [|split; [|done]].
    + cbn [formatted_nids set_formatted_nids identifier_query].
      by rewrite str_join_cons.
    + cbn [formatted_nids set_formatted_nids].
      split; intros Hx; discriminate Hx.
Qed.
End FormatNids.

(** The example of the design document, run on the code. *)
Example format_nids_for_anki_two :
  formatted_nids (format_nids_for_anki
    (SearchResult (F:=unit) "q" [] [] "" "" ["111"; "222"] "" JNull [])) = "nid:111,222".
Proof. reflexivity. Qed.

(** C6 as stated: the prefix would be ["id:"]; the code writes ["nid:"]. *)
Lemma format_nids_for_anki_not_id_prefix :
  formatted_nids (format_nids_for_anki
    (SearchResult (F:=unit) "q" [] [] "" "" ["111"; "222"] "" JNull []))
  ≠ identifier_query "id:" ["111"; "222"].
Proof. discriminate. Qed.

(** ** Empty input to the rerank stage (rerank.py, [rerank_workflow]) *)

(** C9: on an empty card list the workflow returns the empty list whatever
    the provider would do, and the call log is unchanged: the provider is
    not invoked. *)
Theorem rerank_workflow_empty {F} (ext : externals F) (query_text : string)
    (num_wanted_back_from_cohere : option Z) (log : list call) :
  rerank_workflow ext query_text [] num_wanted_back_from_cohere log = (inr [], log).
Proof. reflexivity. Qed.

(** By contrast, a non-empty list costs exactly one call of the provider,
    with the contents in the order of the cards. *)
Lemma rerank_workflow_invokes_once {F} (ext : externals F) (query_text : string)
    (card : sim_card F) (cards : list (sim_card F))
    (num_wanted_back_from_cohere : option Z) (log : list call) :
  (rerank_workflow ext query_text (card :: cards) num_wanted_back_from_cohere log).2
  = log ++ [CallRerank query_text (map content (card :: cards))
              (top_n_argument num_wanted_back_from_cohere)].
Proof.
  unfold rerank_workflow, try_except, prepare_for_cohere, invoke, lift.
  cbn [mbind M_bind]. by destruct (rerank ext _ _ _).
Qed.

(** ** Ranks given by the two reconcilers *)

Section Ranks.
Context {F : Type}.
Implicit Types (m : gmap string (rel_card F)) (ids : list string) (rank : nat).

(** *** The generative stage (core.py, [create_llm_ranked_cards]) *)

Lemma llm_rank_loop_omap m rank ids :
  llm_rank_loop rank ids m = omap (llm_entry m) (zip (seq rank (length ids)) ids).
Proof.
  revert rank. induction ids as [|id ids IH]; intros rank; [done|].
  cbn [llm_rank_loop length seq zip zip_with omap list_omap].
  unfold llm_entry at 1. cbn [fst snd].
  destruct (m !! id) as [card|]; cbn [fmap option_fmap option_map]; by rewrite IH.
Qed.

Lemma llm_rank_loop_sorted m rank ids :
  Forall (λ c : llm_card F, rank ≤ llm_rank c)%nat (llm_rank_loop rank ids m)
  ∧ StronglySorted lt (llm_rank <$> llm_rank_loop rank ids m).
Proof.
  revert rank. induction ids as [|id ids IH]; intros rank.
  - split; constructor.
  - destruct (IH (S rank)) as [Hge Hsorted]. cbn [llm_rank_loop].
    destruct (m !! id) as [card|].
    + split.
      * constructor; [done|]. eapply Forall_impl; [exact Hge|]. simpl. lia.
      * rewrite fmap_cons. constructor; [done|].
        rewrite Forall_fmap. eapply Forall_impl; [exact Hge|]. simpl. lia.
    + split; [|done]. eapply Forall_impl; [exact Hge|]. simpl. lia.
Qed.

Lemma llm_rank_loop_dense m rank ids :
  Forall (λ id, is_Some (m !! id)) ids →
  llm_rank <$> llm_rank_loop rank ids m = seq rank (length ids).
Proof.
  revert rank. induction ids as [|id ids IH]; intros rank Hall; [done|].
  inversion Hall as [|? ? [card Hcard] Hrest]; subst.
  cbn [llm_rank_loop]. rewrite Hcard, fmap_cons. cbn [length seq llm_rank].
  by rewrite IH.
Qed.

Lemma llm_rank_loop_nids m rank ids :
  (∀ k card, m !! k = Some card → nid (rel_base card) = k) →
  (λ c, nid (rel_base (llm_base c))) <$> llm_rank_loop rank ids m
  = filter (λ id, is_Some (m !! id)) ids.
Proof.
  intros Hkeys. revert rank. induction ids as [|id ids IH]; intros rank; [done|].
  cbn [llm_rank_loop]. destruct (m !! id) as [card|] eqn:Hid.
  - rewrite filter_cons_True by (by rewrite Hid).
    rewrite fmap_cons, IH. cbn [llm_base]. by rewrite (Hkeys _ _ Hid).
  - rewrite filter_cons_False by (rewrite Hid; by intros [? ?]). apply IH.
Qed.

Lemma nid_to_card_of_keys (cards : list (rel_card F)) k card :
  nid_to_card_of cards !! k = Some card → nid (rel_base card) = k.
Proof.
  unfold nid_to_card_of.
  assert (Hgen : ∀ m0 : gmap string (rel_card F),
    (∀ k c, m0 !! k = Some c → nid (rel_base c) = k) →
    ∀ k c, foldl (λ m c', <[nid (rel_base c') := c']> m) m0 cards !! k = Some c →
           nid (rel_base c) = k).
  { induction cards as [|c0 cards IH]; intros m0 Hm0 k' c'; [apply Hm0|].
    cbn [foldl]. apply IH. intros k2 c2.
    destruct (decide (nid (rel_base c0) = k2)) as [<-|Hne].
    - rewrite lookup_insert_eq. by intros [= <-].
    - rewrite lookup_insert_ne by done. apply Hm0. }
  apply Hgen. intros k' c'. by rewrite lookup_empty.
Qed.

(** C2, as the code has it: the extracted identifiers are visited in
    order, an identifier without a card is skipped, and a resolved one gets
    as [llm_rank] its own 1-based position in the extracted list.  The
    output follows the order of the extracted identifiers and its ranks
    increase strictly; they are exactly [1..length] when every identifier
    resolves. *)
Theorem create_llm_ranked_cards_ranks (reranked_cards : list (rel_card F))
    (extracted_nids : list string) :
  let m := nid_to_card_of reranked_cards in
  let out := create_llm_ranked_cards reranked_cards extracted_nids in
  out = omap (llm_entry m) (zip (seq 1 (length extracted_nids)) extracted_nids)
  ∧ (λ c, nid (rel_base (llm_base c))) <$> out
    = filter (λ id, is_Some (m !! id)) extracted_nids
  ∧ StronglySorted lt (llm_rank <$> out)
  ∧ (Forall (λ id, is_Some (m !! id)) extracted_nids →
     llm_rank <$> out = seq 1 (length out)).
Proof.
  intros m out. subst m out. unfold create_llm_ranked_cards.
  split; [apply llm_rank_loop_omap|].
  split; [apply llm_rank_loop_nids, nid_to_card_of_keys|].
  split; [apply llm_rank_loop_sorted|].
  intros Hall. rewrite (llm_rank_loop_dense _ _ _ Hall).
  f_equal. rewrite <- (length_fmap llm_rank), (llm_rank_loop_dense _ _ _ Hall).
  by rewrite length_seq.
Qed.
End Ranks.

(** The example of the design document: the order of the extracted
    identifiers decides, not the relevance order. *)
Example create_llm_ranked_cards_follows_ids :
  create_llm_ranked_cards two_rel_cards ["123"; "456"]
  = [LlmCard (RelCard (SimCard 2 "123" () "A") () 2) 1;
     LlmCard (RelCard (SimCard 1 "456" () "B") () 1) 2].
Proof. reflexivity. Qed.

Lemma create_llm_ranked_cards_ranks_witness :
  Forall (λ id, is_Some (nid_to_card_of two_rel_cards !! id)) ["123"; "456"]
  ∧ llm_rank <$> create_llm_ranked_cards two_rel_cards ["123"; "456"] = [1; 2]%nat.
Proof.
  assert (Hall : Forall (λ id, is_Some (nid_to_card_of two_rel_cards !! id)) ["123"; "456"]).
  { repeat (apply Forall_cons; split); [| |apply Forall_nil]; eexists; vm_compute; reflexivity. }
  split; [exact Hall|].
  exact (proj2 (proj2 (proj2 (create_llm_ranked_cards_ranks two_rel_cards ["123"; "456"]))) Hall).
Defined.

(** C2 as stated: with an unresolvable identifier ahead of a resolvable
    one the only rank given is 2, so the ranks are not [1..length]. *)
Lemma create_llm_ranked_cards_rank_gap :
  llm_rank <$> create_llm_ranked_cards two_rel_cards ["999"; "123"] = [2%nat]
  ∧ llm_rank <$> create_llm_ranked_cards two_rel_cards ["999"; "123"]
    ≠ seq 1 (length (create_llm_ranked_cards two_rel_cards ["999"; "123"])).
Proof. split; [reflexivity | discriminate]. Qed.

Section RelevanceRanks.
Context {F : Type}.
Implicit Types (idx : gmap Z (sim_card F)) (results : list (cohere_result F)) (rank : nat).

(** *** The rerank stage (rerank.py, [reconstruct_from_cohere]) *)

Lemma insert_by_key_last {A} (key : A → nat) x (l : list A) :
  Forall (λ y, key y ≤ key x)%nat l → insert_by_key key x l = l ++ [x].
Proof.
  induction 1 as [|y l Hy _ IH]; [done|].
  cbn [insert_by_key]. rewrite (proj2 (Nat.leb_le _ _) Hy), IH. done.
Qed.

(** A list whose keys already increase is left as it is by the sort. *)
Lemma sort_by_key_sorted {A} (key : A → nat) (l : list A) :
  StronglySorted le (key <$> l) → sort_by_key key l = l.
Proof.
  unfold sort_by_key. induction l as [|x l IH] using rev_ind; [done|].
  intros Hsorted. rewrite fmap_app in Hsorted.
  apply StronglySorted_app in Hsorted as (Hlx & Hl & _).
  rewrite foldl_snoc, (IH Hl). apply insert_by_key_last.
  apply Forall_forall. intros y Hy. apply Hlx.
  - apply list_elem_of_fmap. by exists y.
  - cbn. apply list_elem_of_here.
Qed.

Lemma reconstruct_loop_omap idx rank results :
  reconstruct_loop rank results idx
  = omap (rel_entry idx) (zip (seq rank (length results)) results).
Proof.
  revert rank. induction results as [|r results IH]; intros rank; [done|].
  cbn [reconstruct_loop length seq zip zip_with omap list_omap].
  unfold rel_entry at 1. cbn [fst snd].
  destruct (idx !! index r) as [card|]; cbn [fmap option_fmap option_map]; by rewrite IH.
Qed.

Lemma reconstruct_loop_sorted idx rank results :
  Forall (λ c : rel_card F, rank ≤ relevance_rank c)%nat (reconstruct_loop rank results idx)
  ∧ StronglySorted lt (relevance_rank <$> reconstruct_loop rank results idx).
Proof.
  revert rank. induction results as [|r results IH]; intros rank.
  - split; constructor.
  - destruct (IH (S rank)) as [Hge Hsorted]. cbn [reconstruct_loop].
    destruct (idx !! index r) as [card|].
    + split.
      * constructor; [done|]. eapply Forall_impl; [exact Hge|]. simpl. lia.
      * rewrite fmap_cons. constructor; [done|].
        rewrite Forall_fmap. eapply Forall_impl; [exact Hge|]. simpl. lia.
    + split; [|done]. eapply Forall_impl; [exact Hge|]. simpl. lia.
Qed.

Lemma reconstruct_loop_dense idx rank results :
  Forall (λ r, is_Some (idx !! index r)) results →
  relevance_rank <$> reconstruct_loop rank results idx = seq rank (length results).
Proof.
  revert rank. induction results as [|r results IH]; intros rank Hall; [done|].
  inversion Hall as [|? ? [card Hcard] Hrest]; subst.
  cbn [reconstruct_loop]. rewrite Hcard, fmap_cons. cbn [length seq relevance_rank].
  by rewrite IH.
Qed.

Lemma StronglySorted_lt_le (l : list nat) : StronglySorted lt l → StronglySorted le l.
Proof.
  induction 1 as [|x l _ IH Hx]; constructor; [done|].
  eapply Forall_impl; [exact Hx|]. simpl. lia.
Qed.

(** C3, as the code has it: every kept card carries as [relevance_rank]
    the 1-based position of its result in the provider's response, a
    result whose index is not in the source mapping is dropped, and the
    final sort changes nothing: the ranks increase strictly along the
    list, so list order is rank order.  They are exactly [1..length] when
    no result is dropped. *)
Theorem reconstruct_from_cohere_ranks results idx :
  let out := reconstruct_from_cohere results idx in
  out = omap (rel_entry idx) (zip (seq 1 (length results)) results)
  ∧ StronglySorted lt (relevance_rank <$> out)
  ∧ (Forall (λ r, is_Some (idx !! index r)) results →
     relevance_rank <$> out = seq 1 (length out)).
Proof.
  intros out. subst out. unfold reconstruct_from_cohere.
  destruct (reconstruct_loop_sorted idx 1 results) as [_ Hsorted].
  rewrite sort_by_key_sorted by (by apply StronglySorted_lt_le).
  split; [apply reconstruct_loop_omap|]. split; [done|].
  intros Hall. rewrite (reconstruct_loop_dense _ _ _ Hall).
  f_equal. rewrite <- (length_fmap relevance_rank), (reconstruct_loop_dense _ _ _ Hall).
  by rewrite length_seq.
Qed.
End RelevanceRanks.

(** A provider that reverses the order of two cards. *)
Example reconstruct_from_cohere_reversed :
  reconstruct_from_cohere [CohereResult 1 (); CohereResult 0 ()]
    (prepare_for_cohere two_sim_cards).2
  = [RelCard (SimCard 2 "123" () "A") () 1; RelCard (SimCard 1 "456" () "B") () 2].
Proof. reflexivity. Qed.

Lemma reconstruct_from_cohere_ranks_witness :
  Forall (λ r, is_Some ((prepare_for_cohere two_sim_cards).2 !! index r))
    [CohereResult 1 (); CohereResult 0 ()]
  ∧ relevance_rank <$> reconstruct_from_cohere [CohereResult 1 (); CohereResult 0 ()]
      (prepare_for_cohere two_sim_cards).2 = [1; 2]%nat.
Proof.
  assert (Hall : Forall (λ r, is_Some ((prepare_for_cohere two_sim_cards).2 !! index r))
    [CohereResult 1 (); CohereResult 0 ()]).
  { repeat (apply Forall_cons; split); [| |apply Forall_nil]; eexists; vm_compute; reflexivity. }
  split; [exact Hall|].
  exact (proj2 (proj2 (reconstruct_from_cohere_ranks [CohereResult 1 (); CohereResult 0 ()]
           (prepare_for_cohere two_sim_cards).2)) Hall).
Defined.

(** C3 as stated: when the provider's first result points outside the
    source set it is dropped, and the card kept keeps rank 2: the ranks are
    not [1..length]. *)
Lemma reconstruct_from_cohere_rank_gap :
  relevance_rank <$> reconstruct_from_cohere [CohereResult 5 (); CohereResult 0 ()]
    (prepare_for_cohere two_sim_cards).2 = [2%nat]
  ∧ relevance_rank <$> reconstruct_from_cohere [CohereResult 5 (); CohereResult 0 ()]
      (prepare_for_cohere two_sim_cards).2
    ≠ seq 1 (length (reconstruct_from_cohere [CohereResult 5 (); CohereResult 0 ()]
                       (prepare_for_cohere two_sim_cards).2)).
Proof. split; [reflexivity | discriminate]. Qed.

(** ** Identifier extraction (core.py, [extract_nid]) *)

Section Extract.
Implicit Types (s t d post : string) (c : ascii).

Lemma strip_prefix_Some p s r : strip_prefix p s = Some r ↔ s = p +:+ r.
Proof.
  revert s. induction p as [|a p IH]; intros s.
  - cbn. split; [by intros [= ->] | by intros ->].
  - destruct s as [|b s]; cbn [strip_prefix]; rewrite append_cons.
    + split; intros Hx; discriminate Hx.
    + case_bool_decide as Hab.
      * subst b. rewrite IH. split; [by intros -> | by intros [= ->]].
      * split; [intros Hx; discriminate Hx | intros [= -> _]; done].
Qed.

Lemma take_digits_Some k s d r :
  take_digits k s = Some (d, r)
  ↔ s = d +:+ r ∧ String.length d = k ∧ all_digits d = true.
Proof.
  revert s d r. induction k as [|k IH]; intros s d r.
  - cbn [take_digits]. split.
    + by intros [= <- <-].
    + intros (-> & Hlen & _). destruct d; [done | discriminate Hlen].
  - destruct s as [|c s]; cbn [take_digits].
    + split; [intros Hx; discriminate Hx|].
      intros (Hs & Hlen & _). destruct d; [discriminate Hlen | discriminate Hs].
    + split.
      * destruct (is_digit c) eqn:Hc; [|intros Hx; discriminate Hx].
        destruct (take_digits k s) as [[d' r']|] eqn:Htd; [|intros Hx; discriminate Hx].
        cbn. intros [= <- <-]. apply IH in Htd as (-> & Hlen & Hd).
        rewrite append_cons. cbn. by rewrite Hc, Hd, Hlen.
      * intros (Hs & Hlen & Hd). destruct d as [|c' d]; [discriminate Hlen|].
        rewrite append_cons in Hs. injection Hs as <- ->.
        cbn in Hlen, Hd. apply andb_true_iff in Hd as [Hc Hd]. rewrite Hc.
        rewrite (proj2 (IH (d +:+ r) d r)); [done|].
        split; [done|]. split; [lia | done].
Qed.

(** The matcher recognises exactly the tokens ["[nid:" d "]"] with [d] a
    13-digit identifier. *)
Lemma match_nid_Some s d :
  match_nid s = Some d ↔ ∃ post, s = "[nid:" +:+ d +:+ "]" +:+ post ∧ is_nid d.
Proof.
  unfold match_nid, is_nid. split.
  - intros Hm.
    destruct (strip_prefix "[nid:" s) as [r1|] eqn:H1;
      cbn [mbind option_bind] in Hm; [|discriminate Hm].
    destruct (take_digits 13 r1) as [[d' r2]|] eqn:H2;
      cbn [mbind option_bind] in Hm; [|discriminate Hm].
    destruct (strip_prefix "]" r2) as [r3|] eqn:H3;
      cbn [mbind option_bind] in Hm; [|discriminate Hm].
    injection Hm as ->.
    apply strip_prefix_Some in H1 as ->. apply take_digits_Some in H2 as (-> & Hlen & Hd).
    apply strip_prefix_Some in H3 as ->. by exists r3.
  - intros (post & -> & Hlen & Hd).
    rewrite (proj2 (strip_prefix_Some "[nid:" _ (d +:+ "]" +:+ post)) eq_refl). cbn [mbind option_bind].
    rewrite (proj2 (take_digits_Some 13 _ d ("]" +:+ post)) (conj eq_refl (conj Hlen Hd))).
    cbn [mbind option_bind].
    by rewrite (proj2 (strip_prefix_Some "]" _ post) eq_refl).
Qed.
End Extract.

Section Scan.
Implicit Types (s t d post : string) (c : ascii) (k : nat).

Lemma match_nid_head c s : c ≠ "["%char → match_nid (String c s) = None.
Proof.
  intros Hc. destruct (match_nid (String c s)) as [d|] eqn:Hm; [|done].
  apply match_nid_Some in Hm as (post & Hs & _).
  rewrite append_cons in Hs. by injection Hs as -> _.
Qed.

Lemma avoids_app c a b : avoids c a → avoids c b → avoids c (a +:+ b).
Proof.
  induction a as [|c' a IH]; [done|]. rewrite append_cons.
  intros [Hc Ha] Hb. split; [done | by apply IH].
Qed.

Lemma all_digits_avoids c d : is_digit c = false → all_digits d = true → avoids c d.
Proof.
  intros Hc. induction d as [|c' d IH]; [done|]. cbn [all_digits avoids].
  intros [Hc' Hd]%andb_true_iff. split; [|by apply IH].
  intros ->. by rewrite Hc in Hc'.
Qed.

Lemma bracket_free_no_match a post :
  bracket_free a → no_match_prefix (String.length a) (a +:+ post).
Proof.
  induction a as [|c a IH]; [done|]. rewrite append_cons.
  intros [Hc Ha]. split; [by apply match_nid_head | by apply IH].
Qed.

(** Matches cannot overlap: after the bracket that opens a match, the
    next 18 characters open none. *)
Lemma match_nid_no_overlap c t d : match_nid (String c t) = Some d → no_match_prefix 18 t.
Proof.
  intros (post & Hs & Hlen & Hd)%match_nid_Some.
  rewrite !append_cons, append_nil_l in Hs. injection Hs as -> ->.
  repeat (split; [by apply match_nid_head|]).
  change (String "]" ("" +:+ post)) with ("]" +:+ post). rewrite <- append_assoc.
  replace 14%nat with (String.length (d +:+ "]")) by (rewrite length_append, Hlen; done).
  apply bracket_free_no_match, avoids_app; [by apply all_digits_avoids|].
  by split.
Qed.

Lemma findall_nid_occurrences k s : no_match_prefix k s → findall_nid k s = occurrences s.
Proof.
  revert k. induction s as [|c t IH]; intros k Hk; [by destruct k|].
  destruct k as [|k]; cbn [findall_nid occurrences].
  - destruct (match_nid (String c t)) as [d|] eqn:Hm; cbn [option_list app].
    + f_equal. apply IH. by eapply match_nid_no_overlap.
    + by apply IH.
  - destruct Hk as [-> Hk]. by apply IH.
Qed.

(** The scan of [re.findall] returns the match at every position. *)
Lemma extract_nid_occurrences s : extract_nid s = occurrences s.
Proof. apply findall_nid_occurrences. by destruct s. Qed.

Lemma substring_0_prefix p s :
  substring 0 (String.length p) s = p ↔ ∃ post, s = p +:+ post.
Proof.
  revert s. induction p as [|a p IH]; intros s.
  - cbn. destruct s; split; eauto.
  - destruct s as [|b s]; cbn [String.length substring].
    + split; [intros Hx; discriminate Hx | intros [post Hx]; discriminate Hx].
    + split.
      * intros [= -> Hp]. apply IH in Hp as [post ->]. by exists post.
      * intros [post Hx]. rewrite append_cons in Hx. injection Hx as -> ->.
        f_equal. apply IH. by exists post.
Qed.

Lemma substring_skip a s n : substring (String.length a) n (a +:+ s) = substring 0 n s.
Proof. induction a as [|c a IH]; [done|]. rewrite append_cons. cbn. apply IH. Qed.

Lemma substring_S i n c s : substring (S i) n (String c s) = substring i n s.
Proof. reflexivity. Qed.

Lemma length_substring_le i n s : (String.length (substring i n s) ≤ n)%nat.
Proof.
  revert i n. induction s as [|c s IH]; intros i n.
  - destruct i, n; cbn; lia.
  - destruct i as [|i]; [destruct n as [|n]|]; cbn; [lia | | apply IH].
    specialize (IH 0%nat n). lia.
Qed.

(** At position 0 the positional reading of a token and the matcher
    agree. *)
Lemma token_at_0 s : token_at "nid" 13 s 0 = match_nid s.
Proof.
  apply option_eq. intros d. rewrite match_nid_Some. unfold token_at, is_nid.
  cbn [String.length Nat.add].
  set (digits := substring 5 13 s). split.
  - intros Ht. destruct (bool_decide _) eqn:Hsub; [|discriminate Ht].
    destruct (String.length digits =? 13)%nat eqn:Hlen; [|discriminate Ht].
    destruct (all_digits digits) eqn:Hd; [|discriminate Ht].
    cbn in Ht. injection Ht as <-.
    apply bool_decide_eq_true in Hsub. apply Nat.eqb_eq in Hlen.
    assert (String.length ("[nid:" +:+ digits +:+ "]") = 19%nat) as Hlen19.
    { rewrite !length_append, Hlen. done. }
    rewrite <- Hlen19 in Hsub. apply substring_0_prefix in Hsub as [post Hs].
    exists post. rewrite !append_assoc in Hs. done.
  - intros (post & Hs & Hlen & Hd).
    assert (digits = d) as ->.
    { subst digits. rewrite Hs.
      etransitivity; [exact (substring_skip "[nid:" _ 13)|].
      rewrite <- Hlen. apply substring_0_prefix. eauto. }
    rewrite Hlen, Hd, Nat.eqb_refl, bool_decide_eq_true_2; [done|].
    replace 19%nat with (String.length ("[nid:" +:+ d +:+ "]"))
      by (rewrite !length_append, Hlen; done).
    apply substring_0_prefix. exists post. rewrite Hs, !append_assoc. done.
Qed.

Lemma token_at_S c s i : token_at "nid" 13 (String c s) (S i) = token_at "nid" 13 s i.
Proof. reflexivity. Qed.

Lemma occurrences_tokens s : occurrences s = tokens_in "nid" 13 s.
Proof.
  unfold tokens_in. induction s as [|c s IH]; [done|].
  cbn [occurrences String.length seq omap list_omap].
  rewrite token_at_0, <- fmap_S_seq, IH.
  assert (omap (token_at "nid" 13 (String c s)) (S <$> seq 0 (String.length s))
          = omap (token_at "nid" 13 s) (seq 0 (String.length s))) as ->.
  { generalize (seq 0 (String.length s)). intros l.
    induction l as [|i l IHl]; [done|].
    rewrite fmap_cons. cbn [omap list_omap]. by rewrite token_at_S, IHl. }
  by destruct (match_nid (String c s)).
Qed.
End Scan.

Section Tokens.
Implicit Types (s t d post pre text : string) (c : ascii).

Lemma token_at_skip pre s i :
  token_at "nid" 13 (pre +:+ s) (String.length pre + i) = token_at "nid" 13 s i.
Proof. induction pre as [|c pre IH]; [done|]. rewrite append_cons. exact IH. Qed.

(** Two digit strings that are each followed by a non-digit in the same
    text are the same string. *)
Lemma digits_prefix_unique a b c x c' y :
  all_digits a = true → all_digits b = true →
  is_digit c = false → is_digit c' = false →
  a +:+ String c x = b +:+ String c' y → a = b.
Proof.
  intros Ha Hb Hc Hc'. revert b Hb.
  induction a as [|h a IH]; intros [|h' b] Hb Heq; [done| | |].
  - rewrite append_cons in Heq. injection Heq as -> _.
    cbn in Hb. by rewrite Hc in Hb.
  - rewrite append_cons in Heq. injection Heq as -> _.
    cbn in Ha. by rewrite Hc' in Ha.
  - rewrite !append_cons in Heq. injection Heq as -> Heq.
    cbn in Ha, Hb. apply andb_true_iff in Ha as [_ Ha]. apply andb_true_iff in Hb as [_ Hb].
    f_equal. by apply IH.
Qed.

(** A bracketed number of another width is no token. *)
Lemma match_nid_wrong_width d post :
  all_digits d = true → String.length d ≠ 13%nat →
  match_nid ("[nid:" +:+ d +:+ "]" +:+ post) = None.
Proof.
  intros Hd Hlen.
  destruct (match_nid _) as [d'|] eqn:Hm; [|done].
  apply match_nid_Some in Hm as (post' & Heq & Hlen' & Hd').
  apply (inj (String.app "[nid:")) in Heq.
  apply digits_prefix_unique in Heq; [congruence|done..].
Qed.

(** C5, as the code has it: the extractor returns the identifiers of the
    tokens ["[nid:<13 digits>]"] of the text, taken by position (so in
    order of appearance and with repetitions); a bracketed number of
    another width yields nothing at its position; a text without token
    yields the empty list. *)
Theorem extract_nid_tokens text :
  extract_nid text = tokens_in "nid" 13 text
  ∧ (∀ pre d post,
       text = pre +:+ "[nid:" +:+ d +:+ "]" +:+ post →
       all_digits d = true → String.length d ≠ 13%nat →
       token_at "nid" 13 text (String.length pre) = None)
  ∧ ((∀ i, token_at "nid" 13 text i = None) → extract_nid text = []).
Proof.
  split; [|split].
  - by rewrite extract_nid_occurrences, occurrences_tokens.
  - intros pre d post -> Hd Hlen.
    rewrite <- (Nat.add_0_r (String.length pre)), token_at_skip, token_at_0.
    by apply match_nid_wrong_width.
  - intros Hnone. rewrite extract_nid_occurrences, occurrences_tokens.
    unfold tokens_in. induction (seq 0 (String.length text)) as [|i l IH]; [done|].
    cbn [omap list_omap]. by rewrite Hnone.
Qed.
End Tokens.

Example extract_nid_two_tokens :
  extract_nid "[nid:1234567890123] foo [nid:9999999999999]"
  = ["1234567890123"; "9999999999999"].
Proof. reflexivity. Qed.

Example extract_nid_repeated :
  extract_nid "[nid:1234567890123][nid:1234567890123]" = ["1234567890123"; "1234567890123"].
Proof. reflexivity. Qed.

Example extract_nid_12_and_14_digits :
  extract_nid "[nid:123456789012] and [nid:12345678901234]" = [].
Proof. reflexivity. Qed.

Lemma extract_nid_tokens_witness :
  token_at "nid" 13 "see [nid:123456789012]." (String.length "see ") = None
  ∧ extract_nid "no token here" = [].
Proof.
  split.
  - apply (proj1 (proj2 (extract_nid_tokens "see [nid:123456789012]."))
             "see " "123456789012" "."); [reflexivity | reflexivity | discriminate].
  - apply (proj2 (proj2 (extract_nid_tokens "no token here"))).
    intros i. do 14 (destruct i as [|i]; [reflexivity|]). reflexivity.
Defined.

(** C5 as stated: on the text of the design document's example, whose
    tokens are written ["[id:...]"], the extractor finds nothing, while the
    tokens of that form are the two identifiers. *)
Lemma extract_nid_ignores_id_tokens :
  extract_nid "[id:1234567890123] foo [id:9999999999999]" = []
  ∧ tokens_in "id" 13 "[id:1234567890123] foo [id:9999999999999]"
    = ["1234567890123"; "9999999999999"]
  ∧ extract_nid "[id:1234567890123] foo [id:9999999999999]"
    ≠ tokens_in "id" 13 "[id:1234567890123] foo [id:9999999999999]".
Proof. split; [reflexivity|]. split; [by vm_compute | by vm_compute]. Qed.

(** ** Prompt assembly followed by extraction (flow.py and core.py) *)

Section RoundTrip.
Context {F : Type}.
Implicit Types (s t d post pre x : string) (c : ascii) (cards : list (rel_card F)).

Lemma app_break_prefix tok x c b post :
  avoids c tok → x +:+ String c b = tok +:+ post → ∃ post', x = tok +:+ post'.
Proof.
  revert x. induction tok as [|h tok IH]; intros x Htok Heq; [by exists x|].
  destruct Htok as [Hh Htok]. rewrite append_cons in Heq.
  destruct x as [|h' x].
  - rewrite append_nil_l in Heq. by injection Heq as -> _.
  - rewrite append_cons in Heq. injection Heq as -> Heq.
    destruct (IH x Htok Heq) as [post' ->]. by exists post'.
Qed.

(** A breaker cuts the text: a match that starts before it ends before
    it. *)
Lemma match_nid_break x c b : breaker c → match_nid (x +:+ String c b) = match_nid x.
Proof.
  intros [Hlit Hdig]. apply option_eq. intros d. rewrite !match_nid_Some. split.
  - intros (post & Heq & Hnid). rewrite <- !append_assoc in Heq.
    apply app_break_prefix in Heq as [post' ->].
    + exists post'. by rewrite !append_assoc.
    + destruct Hnid as [_ Hd]. destruct Hlit as (? & ? & ? & ? & ? & ? & _).
      rewrite !append_assoc. rewrite !append_cons, append_nil_l.
      repeat (split; [done|]). apply avoids_app; [by apply all_digits_avoids|].
      by split.
  - intros (post & -> & Hnid). exists (post +:+ String c b). by rewrite !append_assoc.
Qed.

Lemma occurrences_head c s : c ≠ "["%char → occurrences (String c s) = occurrences s.
Proof. intros Hc. cbn [occurrences]. by rewrite match_nid_head. Qed.

Lemma occurrences_avoid a s : bracket_free a → occurrences (a +:+ s) = occurrences s.
Proof.
  induction a as [|c a IH]; [done|]. intros [Hc Ha].
  rewrite append_cons, occurrences_head by done. by apply IH.
Qed.

Lemma occurrences_break a c b :
  breaker c → occurrences (a +:+ String c b) = occurrences a ++ occurrences b.
Proof.
  intros Hc. induction a as [|h a IH].
  - rewrite append_nil_l. apply occurrences_head. by destruct Hc as [[? _] _].
  - rewrite append_cons. cbn [occurrences].
    rewrite <- append_cons, match_nid_break by done. by rewrite IH, app_assoc.
Qed.

Lemma occurrences_token d s :
  is_nid d → occurrences ("[nid:" +:+ d +:+ "]" +:+ s) = d :: occurrences s.
Proof.
  intros Hnid.
  assert (match_nid ("[nid:" +:+ d +:+ "]" +:+ s) = Some d) as Hm.
  { apply match_nid_Some. by exists s. }
  rewrite append_cons in Hm |- *. cbn [occurrences]. rewrite Hm. cbn [option_list app].
  f_equal. rewrite <- !append_assoc. apply occurrences_avoid.
  rewrite append_assoc. rewrite !append_cons, append_nil_l.
  repeat (split; [done|]). apply avoids_app; [|by split].
  apply all_digits_avoids; [done | apply Hnid].
Qed.

Lemma foldl_card_lines init cards :
  foldl (λ out card, out +:+ card_line card) init cards = init +:+ card_lines cards.
Proof.
  revert init. induction cards as [|card cards IH]; intros init.
  - by rewrite append_nil_r.
  - cbn [foldl card_lines foldr]. by rewrite IH, append_assoc.
Qed.

Lemma breaker_LF : breaker LF.
Proof. by repeat split. Qed.

Lemma breaker_space : breaker " "%char.
Proof. by repeat split. Qed.

Lemma occurrences_token_cons d s :
  is_nid d →
  occurrences (String "[" (String "n" (String "i" (String "d" (String ":"
                (d +:+ String "]" s)))))) = d :: occurrences s.
Proof. exact (occurrences_token d s). Qed.

Lemma occurrences_card_lines cards :
  Forall (λ card, is_nid (nid (rel_base card))) cards →
  Forall (λ card, tokens_in "nid" 13 (content (rel_base card)) = []) cards →
  occurrences (card_lines cards) = (λ card, nid (rel_base card)) <$> cards.
Proof.
  induction cards as [|card cards IH]; [done|].
  intros [Hnid Hnids]%Forall_cons [Hclean Hcleans]%Forall_cons.
  cbn [card_lines foldr]. fold (card_lines cards). unfold card_line, nl.
  rewrite !append_assoc, !append_cons, !append_nil_l.
  rewrite !occurrences_head by done.
  rewrite occurrences_token_cons by done.
  rewrite occurrences_head by done.
  rewrite (occurrences_break _ LF) by apply breaker_LF.
  rewrite occurrences_tokens, Hclean, app_nil_l, fmap_cons. f_equal. by apply IH.
Qed.

(** C10: when every card identifier is a 13-digit number and neither the
    header, nor the query, nor any card content contains a token, the
    extractor applied to the assembled prompt returns the card identifiers
    in the order of the card list. *)
Theorem extract_nid_of_prompt header_that_is_prompt query_text cards :
  Forall (λ card, is_nid (nid (rel_base card))) cards →
  tokens_in "nid" 13 header_that_is_prompt = [] →
  tokens_in "nid" 13 query_text = [] →
  Forall (λ card, tokens_in "nid" 13 (content (rel_base card)) = []) cards →
  extract_nid (format_flashcard_results_for_llm header_that_is_prompt query_text cards)
  = (λ card, nid (rel_base card)) <$> cards.
Proof.
  intros Hnids Hheader Hquery Hcontents.
  rewrite extract_nid_occurrences. unfold format_flashcard_results_for_llm.
  rewrite foldl_card_lines. unfold nl.
  rewrite !append_assoc, !append_cons, !append_nil_l.
  rewrite !occurrences_head by done.
  rewrite (occurrences_break header_that_is_prompt LF) by apply breaker_LF.
  rewrite occurrences_tokens, Hheader, app_nil_l.
  rewrite !occurrences_head by done.
  rewrite (occurrences_break query_text LF) by apply breaker_LF.
  rewrite occurrences_tokens, Hquery, app_nil_l.
  rewrite !occurrences_head by done.
  by apply occurrences_card_lines.
Qed.
End RoundTrip.

Example prompt_of_pool_cards :
  format_flashcard_results_for_llm "Pick the 2 best cards." "heart valves" pool_cards
  = "# Prompt" +:+ nl +:+ "Pick the 2 best cards." +:+ nl +:+ nl +:+
    "## Query" +:+ nl +:+ "heart valves" +:+ nl +:+ nl +:+
    "## Flashcard Pool" +:+ nl +:+
    "- [nid:1700000000002] Mitral valve: between left atrium and ventricle" +:+ nl +:+
    "- [nid:1700000000001] Aortic valve [three cusps]" +:+ nl.
Proof. reflexivity. Qed.

Lemma extract_nid_of_prompt_witness :
  extract_nid (format_flashcard_results_for_llm "Pick the 2 best cards." "heart valves" pool_cards)
  = ["1700000000002"; "1700000000001"].
Proof.
  apply (extract_nid_of_prompt "Pick the 2 best cards." "heart valves" pool_cards).
  - repeat constructor.
  - reflexivity.
  - reflexivity.
  - repeat constructor.
Defined.

(** ** Top-N similarity search (flow.py, [get_top_n_similarities_and_indices]) *)

Section Gather.
Context {A : Type}.
Implicit Types (a ys : list A) (idx : list nat).

Lemma take_indices_gathered a idx ys : take_indices a idx = inr ys ↔ gathered a idx ys.
Proof.
  unfold gathered. revert ys. induction idx as [|i idx IH]; intros ys; cbn [take_indices].
  - split; [intros [= <-]; constructor | by intros ->%Forall2_nil_inv_l].
  - destruct (a !! i) as [x|] eqn:Hi.
    + destruct (take_indices a idx) as [e|ys'] eqn:Hrest; cbn.
      * split; [intros Hx; discriminate Hx|].
        intros (y & ys' & Hy & Hys & ->)%Forall2_cons_inv_l.
        apply IH in Hys. discriminate Hys.
      * split.
        -- intros [= <-]. constructor; [done | by apply IH].
        -- intros (y & ys'' & Hy & Hys & ->)%Forall2_cons_inv_l.
           apply IH in Hys. injection Hys as ->.
           rewrite Hi in Hy. by injection Hy as ->.
    + split; [intros Hx; discriminate Hx|].
      intros (y & ys' & Hy & _)%Forall2_cons_inv_l. congruence.
Qed.

Lemma take_indices_error a idx e :
  take_indices a idx = inl e → ∃ i, e = IndexError (Z.of_nat i) (length a).
Proof.
  induction idx as [|i idx IH]; cbn [take_indices]; [intros Hx; discriminate Hx|].
  destruct (a !! i); [|intros [= <-]; eauto].
  destruct (take_indices a idx); cbn; [|intros Hx; discriminate Hx].
  intros [= <-]. by apply IH.
Qed.

Lemma gathered_omap a idx ys : gathered a idx ys → ys = omap (λ i, a !! i) idx.
Proof.
  induction 1 as [|i y idx ys Hi _ IH]; [done|].
  cbn [omap list_omap]. by rewrite Hi, IH.
Qed.

Lemma gathered_exists a idx :
  Forall (λ i, i < length a)%nat idx → ∃ ys, gathered a idx ys.
Proof.
  unfold gathered. induction 1 as [|i idx Hi _ IH]; [exists []; constructor|].
  destruct IH as [ys IH].
  apply lookup_lt_is_Some_2 in Hi as [x Hx]. exists (x :: ys). by constructor.
Qed.

Lemma gathered_seq a : gathered a (seq 0 (length a)) a.
Proof.
  apply Forall2_same_length_lookup. split; [by rewrite length_seq|].
  intros i j y [-> _]%lookup_seq Hy. done.
Qed.

Lemma gathered_Permutation a idx idx' ys ys' :
  idx ≡ₚ idx' → gathered a idx ys → gathered a idx' ys' → ys ≡ₚ ys'.
Proof.
  intros Hperm ->%gathered_omap ->%gathered_omap. by rewrite Hperm.
Qed.

Lemma gathered_bound a idx ys : gathered a idx ys → Forall (λ i, i < length a)%nat idx.
Proof.
  induction 1 as [|i y idx ys Hi _ IH]; constructor; [|done].
  by eapply lookup_lt_Some.
Qed.

(** Reading [a] at [idx], then the outcome at [order], is reading [a] at
    the positions that [order] picks in [idx]. *)
Lemma gathered_compose a idx keys order picked ys :
  gathered a idx keys → gathered idx order picked →
  gathered a picked ys ↔ gathered keys order ys.
Proof.
  intros Hkeys Hpicked. revert ys.
  induction Hpicked as [|o i order picked Ho _ IH]; intros ys.
  - split; intros ->%Forall2_nil_inv_l; constructor.
  - destruct (Forall2_lookup_l _ _ _ _ _ Hkeys Ho) as (k & Hk & Hik).
    split; intros (y & ys' & Hy & Hys & ->)%Forall2_cons_inv_l.
    + constructor; [congruence | by apply IH].
    + constructor; [congruence | by apply IH].
Qed.
End Gather.

Section TopNFacts.
Context {F : Type} `{NumpySort F}.
Implicit Types (scores keys sims : list F) (part top idx : list nat) (n : Z).

Lemma perm_seq_bound part m : part ≡ₚ seq 0 m → Forall (λ i, i < m)%nat part.
Proof.
  intros Hperm. apply Forall_forall. intros i Hi. rewrite Hperm in Hi.
  apply elem_of_seq in Hi. lia.
Qed.

Lemma argsort_reverse_descending keys order_sims :
  gathered keys (reverse (np_argsort keys)) order_sims → descending order_sims.
Proof.
  intros Hrev.
  destruct (gathered_exists keys (np_argsort keys)) as [sorted Hsorted].
  { apply perm_seq_bound, np_argsort_perm. }
  pose proof (Forall2_reverse _ _ _ Hsorted) as Hrev'.
  apply gathered_omap in Hrev, Hrev'. rewrite Hrev, <- Hrev'.
  apply (Sorted_reverse (λ x y, f32_le x y = true)). by eapply np_argsort_sorted.
Qed.

(** The three indexing steps that follow the partial selection succeed,
    and return a rearrangement of the selected positions whose scores
    descend. *)
Lemma select_top_steps scores part k :
  part ≡ₚ seq 0 (length scores) →
  let top := drop k part in
  ∃ keys idx sims,
    take_indices scores top = inr keys
    ∧ take_indices top (reverse (np_argsort keys)) = inr idx
    ∧ take_indices scores idx = inr sims
    ∧ idx ≡ₚ top ∧ gathered scores idx sims ∧ descending sims.
Proof.
  intros Hpart top.
  assert (Htop : Forall (λ i, i < length scores)%nat top).
  { apply Forall_drop. by apply perm_seq_bound. }
  destruct (gathered_exists scores top Htop) as [keys Hkeys].
  assert (Horder : reverse (np_argsort keys) ≡ₚ seq 0 (length top)).
  { rewrite reverse_Permutation, np_argsort_perm.
    by rewrite (Forall2_length _ _ _ Hkeys). }
  destruct (gathered_exists top (reverse (np_argsort keys))) as [idx Hidx].
  { by apply perm_seq_bound. }
  assert (Hperm : idx ≡ₚ top).
  { eapply gathered_Permutation; [exact Horder | exact Hidx | apply gathered_seq]. }
  destruct (gathered_exists scores idx) as [sims Hsims].
  { apply Forall_forall. intros i Hi. rewrite Hperm in Hi.
    by eapply Forall_forall in Htop. }
  exists keys, idx, sims.
  split_and!.
  - by apply take_indices_gathered.
  - by apply take_indices_gathered.
  - by apply take_indices_gathered.
  - exact Hperm.
  - exact Hsims.
  - eapply argsort_reverse_descending.
    exact (proj1 (gathered_compose _ _ _ _ _ _ Hkeys Hidx) Hsims).
Qed.

Lemma argpartition_pivot scores n :
  0 ≤ n ≤ Z.of_nat (length scores) →
  argpartition scores (- n) = inr (np_select scores (pivot (length scores) n)).
Proof.
  intros Hn. unfold argpartition.
  assert (Hpivot : Z.of_nat (pivot (length scores) n)
                   = if - n <? 0 then - n + Z.of_nat (length scores) else - n).
  { unfold pivot. destruct (Z.eqb_spec n 0), (Z.ltb_spec (- n) 0); lia. }
  destruct (negb _ && _) eqn:Hcond.
  - exfalso. apply andb_true_iff in Hcond as [Hlen Hk].
    apply negb_true_iff, Z.eqb_neq in Hlen.
    apply orb_true_iff in Hk as [Hk%Z.ltb_lt|Hk%Z.leb_le];
      destruct (Z.ltb_spec (- n) 0); lia.
  - do 2 f_equal. rewrite <- Hpivot. lia.
Qed.

Lemma slice_from_pivot {A} (part : list A) n :
  0 ≤ n ≤ Z.of_nat (length part) →
  slice_from part (- n) = drop (pivot (length part) n) part.
Proof.
  intros Hn. unfold slice_from, pivot. f_equal.
  destruct (Z.eqb_spec n 0), (Z.ltb_spec (- n) 0); lia.
Qed.

Lemma select_top_unfold scores n :
  0 ≤ n ≤ Z.of_nat (length scores) →
  let k := pivot (length scores) n in
  ∃ keys idx sims,
    select_top scores n = inr (idx, sims)
    ∧ take_indices scores (drop k (np_select scores k)) = inr keys
    ∧ idx ≡ₚ drop k (np_select scores k)
    ∧ gathered scores idx sims ∧ descending sims.
Proof.
  intros Hn k.
  destruct (select_top_steps scores (np_select scores k) k (np_select_perm _ _))
    as (keys & idx & sims & Hkeys & Hidx & Hsims & Hperm & Hgath & Hdesc).
  exists keys, idx, sims. split_and!; [|done..].
  unfold select_top. rewrite argpartition_pivot by done. cbn [mbind exn_bind].
  rewrite slice_from_pivot
    by (by rewrite (Permutation_length (np_select_perm scores _)), length_seq).
  rewrite (Permutation_length (np_select_perm scores _)), length_seq.
  fold k. rewrite Hkeys. cbn [mbind exn_bind].
  rewrite Hidx. cbn [mbind exn_bind]. by rewrite Hsims.
Qed.
End TopNFacts.

Section TopNTheorems.
Context {F : Type} `{NumpySort F}.
Implicit Types (scores sims : list F) (idx : list nat) (n : Z)
  (query : list F) (embeddings : matrix F).

Lemma length_similarity_scores query embeddings :
  length (similarity_scores query embeddings) = length (mrows embeddings).
Proof. unfold similarity_scores. apply length_map. Qed.

(** Every score that is not selected is at most every selected one. *)
Lemma select_top_largest scores n idx :
  1 ≤ n ≤ Z.of_nat (length scores) →
  idx ≡ₚ drop (pivot (length scores) n) (np_select scores (pivot (length scores) n)) →
  ∀ i j x y, scores !! i = Some x → i ∉ idx → j ∈ idx → scores !! j = Some y →
             f32_le x y = true.
Proof.
  intros Hn Hidx i j x y Hx Hi Hj Hy.
  set (k := pivot (length scores) n) in *.
  assert (Hk : (k < length scores)%nat).
  { subst k. unfold pivot. destruct (Z.eqb_spec n 0); lia. }
  pose proof (np_select_perm scores k) as Hperm.
  destruct (gathered_exists scores (np_select scores k)) as [pys Hpys].
  { by apply perm_seq_bound. }
  assert (Hlen : length (np_select scores k) = length scores).
  { by rewrite (Permutation_length Hperm), length_seq. }
  destruct (lookup_lt_is_Some_2 (np_select scores k) k) as [ik Hik]; [lia|].
  destruct (Forall2_lookup_l _ _ _ _ _ Hpys Hik) as (xk & Hxk & _).
  pose proof (np_select_kth scores k pys xk Hpys Hxk) as Hkth.
  rewrite Hidx in Hj. apply list_elem_of_lookup in Hj as [q Hq].
  rewrite lookup_drop in Hq.
  destruct (Forall2_lookup_l _ _ _ _ _ Hpys Hq) as (y' & Hy' & Hjy).
  assert (y' = y) as -> by congruence.
  assert (Hi' : i ∈ np_select scores k).
  { rewrite Hperm. apply elem_of_seq. apply lookup_lt_Some in Hx. lia. }
  apply list_elem_of_lookup in Hi' as [p Hp].
  destruct (Forall2_lookup_l _ _ _ _ _ Hpys Hp) as (x' & Hx' & Hix).
  assert (x' = x) as -> by congruence.
  assert (Hpk : (p < k)%nat).
  { destruct (decide (p < k)%nat) as [|Hge]; [done|]. exfalso. apply Hi.
    rewrite Hidx. apply list_elem_of_lookup. exists (p - k)%nat.
    rewrite lookup_drop. by replace (k + (p - k))%nat with p by lia. }
  destruct (Hkth p x Hx') as [Hlow _]. specialize (Hlow Hpk).
  destruct q as [|q].
  - rewrite Nat.add_0_r in Hy'. by assert (xk = y) as <- by congruence.
  - destruct (Hkth _ _ Hy') as [_ Hhigh].
    eapply f32_le_trans; [exact Hlow | apply Hhigh; lia].
Qed.

(** C1, as the code has it: for a query of the matrix's dimensionality
    and [1 <= n <= rows], the search returns exactly [n] (index, score)
    pairs, the indices distinct, each score the similarity at its index, the
    scores in non-increasing order, and no score left out exceeds a
    returned one.  The order among equal scores is whatever the numpy
    primitives give. *)
Theorem top_n_descending query embeddings n :
  length query = ncols embeddings →
  1 ≤ n ≤ Z.of_nat (length (mrows embeddings)) →
  let scores := similarity_scores query embeddings in
  ∃ idx sims,
    get_top_n_similarities_and_indices query embeddings n = inr (idx, sims)
    ∧ length idx = Z.to_nat n ∧ length sims = Z.to_nat n
    ∧ NoDup idx
    ∧ gathered scores idx sims
    ∧ descending sims
    ∧ (∀ i j x y, scores !! i = Some x → i ∉ idx → j ∈ idx → scores !! j = Some y →
                  f32_le x y = true).
Proof.
  intros Hdim Hn scores.
  assert (Hlen : length scores = length (mrows embeddings))
    by apply length_similarity_scores.
  rewrite <- Hlen in Hn.
  destruct (select_top_unfold scores n) as (keys & idx & sims & Hsel & _ & Hperm & Hgath & Hdesc);
    [lia|].
  exists idx, sims.
  assert (Hidxlen : length idx = Z.to_nat n).
  { rewrite (Permutation_length Hperm), length_drop.
    rewrite (Permutation_length (np_select_perm scores _)), length_seq.
    unfold pivot. destruct (Z.eqb_spec n 0); lia. }
  split_and!.
  - unfold get_top_n_similarities_and_indices.
    by rewrite Hdim, Nat.eqb_refl.
  - done.
  - by rewrite <- (Forall2_length _ _ _ Hgath).
  - rewrite Hperm.
    assert (Hnodup : NoDup (np_select scores (pivot (length scores) n))).
    { rewrite (np_select_perm scores _). apply NoDup_seq. }
    rewrite <- (take_drop (pivot (length scores) n)) in Hnodup.
    by apply NoDup_app in Hnodup as (_ & _ & Hdrop).
  - done.
  - done.
  - by apply (select_top_largest scores n idx).
Qed.

Lemma select_top_error scores n e :
  select_top scores n = inl e →
  (∃ kth size, e = KthOutOfBounds kth size) ∨ (∃ i size, e = IndexError i size).
Proof.
  unfold select_top, argpartition.
  destruct (negb _ && _); cbn [mbind exn_bind]; [intros [= <-]; eauto|].
  destruct (take_indices scores _) as [e1|keys] eqn:H1; cbn [mbind exn_bind].
  { intros [= <-]. apply take_indices_error in H1 as [i ->]. eauto. }
  destruct (take_indices _ (reverse _)) as [e2|idx] eqn:H2; cbn [mbind exn_bind].
  { intros [= <-]. apply take_indices_error in H2 as [i ->]. eauto. }
  destruct (take_indices scores idx) as [e3|sims] eqn:H3; cbn [mbind exn_bind].
  { intros [= <-]. apply take_indices_error in H3 as [i ->]. eauto. }
  intros Hx. discriminate Hx.
Qed.

(** C7, as the code has it: the search fails with the dimension-mismatch
    error exactly when the query's dimensionality differs from the
    matrix's column count; with matching dimensionality and
    [0 <= n <= rows] it raises nothing. *)
Theorem top_n_dimension_mismatch query embeddings n :
  ((∃ qd md, get_top_n_similarities_and_indices query embeddings n
             = inl (DimensionMismatch qd md))
   ↔ length query ≠ ncols embeddings)
  ∧ (length query = ncols embeddings →
     0 ≤ n ≤ Z.of_nat (length (mrows embeddings)) →
     ∃ result, get_top_n_similarities_and_indices query embeddings n = inr result).
Proof.
  unfold get_top_n_similarities_and_indices. split; [split|].
  - intros (qd & md & Hres). destruct (Nat.eqb_spec (length query) (ncols embeddings));
      [|done]. cbn [negb] in Hres.
    apply select_top_error in Hres as [(? & ? & Hx)|(? & ? & Hx)]; discriminate Hx.
  - intros Hne. apply Nat.eqb_neq in Hne. rewrite Hne. cbn [negb]. eauto.
  - intros -> Hn. rewrite Nat.eqb_refl. cbn [negb].
    rewrite <- (length_similarity_scores query embeddings) in Hn.
    destruct (select_top_unfold _ n Hn) as (keys & idx & sims & Hsel & _).
    by exists (idx, sims).
Qed.
End TopNTheorems.

(** ** A concrete [float32] and a concrete numpy *)

(** *** The order of binary32 *)

Lemma b32_lt_key x y : b32_lt x y = true ↔ key_lt (b32_key x) (b32_key y).
Proof.
  unfold b32_lt, SFltb, key_lt.
  destruct x as [sx|sx| |sx mx ex], y as [sy|sy| |sy my ey];
    try destruct sx; try destruct sy; cbn; try (split; [done | lia]); try (split; [lia | done]);
    try (split; [intros; lia | done]).
  all: change (Pos.compare_cont Eq mx my) with (Pos.compare mx my).
  all: destruct (Z.compare_spec ex ey), (Pos.compare_spec mx my); cbn;
    split; try done; lia.
Qed.

Lemma b32_le_key x y : b32_le x y = true ↔ ¬ key_lt (b32_key y) (b32_key x).
Proof.
  unfold b32_le. rewrite negb_true_iff, <- b32_lt_key. by destruct (b32_lt y x).
Qed.

#[global] Instance binary32_float : Float32 binary32.
Proof.
  refine {| f32_one := b32_one; f32_eq0 := b32_eq0; f32_div := b32_div;
            f32_norm := b32_norm; f32_dot := b32_dot; f32_le := b32_le |}.
  - intros a b. rewrite !b32_le_key. unfold key_lt. lia.
  - intros a b c. rewrite !b32_le_key. unfold key_lt. lia.
Defined.

(** *** The stable index sort meets numpy's contract *)

Section StableSort.
Context {F : Type} `{Float32 F}.
Implicit Types (p q : nat * F) (l sorted : list (nat * F)) (a : list F).

Lemma insert_pair_perm p sorted : insert_pair p sorted ≡ₚ p :: sorted.
Proof.
  induction sorted as [|q rest IH]; [done|]. cbn [insert_pair].
  destruct (f32_le q.2 p.2); [|done]. rewrite IH. apply Permutation_swap.
Qed.

Lemma sort_pairs_perm l : sort_pairs l ≡ₚ l.
Proof.
  unfold sort_pairs. induction l as [|p l IH] using rev_ind; [done|].
  rewrite foldl_snoc, insert_pair_perm, IH. by rewrite Permutation_cons_append.
Qed.

Lemma insert_pair_sorted p sorted : Sorted pair_le sorted → Sorted pair_le (insert_pair p sorted).
Proof.
  induction 1 as [|q rest Hrest IH Hq]; [repeat constructor|].
  cbn [insert_pair]. destruct (f32_le q.2 p.2) eqn:Hqp.
  - constructor; [done|]. destruct Hq as [|r rest' Hr]; cbn [insert_pair].
    + by constructor.
    + destruct (f32_le r.2 p.2); by constructor.
  - constructor; [by constructor|]. constructor.
    destruct (f32_le_total q.2 p.2) as [Hx|Hx]; [congruence | done].
Qed.

Lemma sort_pairs_sorted l : Sorted pair_le (sort_pairs l).
Proof.
  unfold sort_pairs. induction l as [|p l IH] using rev_ind; [constructor|].
  rewrite foldl_snoc. by apply insert_pair_sorted.
Qed.

Lemma stable_argsort_perm a : stable_argsort a ≡ₚ seq 0 (length a).
Proof.
  unfold stable_argsort. rewrite sort_pairs_perm.
  by rewrite fst_zip by (by rewrite length_seq).
Qed.

(** The values read at the sorted indices are the second components of
    the sorted pairs. *)
Lemma stable_argsort_values a ys :
  gathered a (stable_argsort a) ys → ys = (sort_pairs (zip (seq 0 (length a)) a)).*2.
Proof.
  intros ->%gathered_omap. unfold stable_argsort.
  assert (Hall : Forall (λ p, a !! p.1 = Some p.2) (sort_pairs (zip (seq 0 (length a)) a))).
  { rewrite sort_pairs_perm. apply Forall_forall. intros [i x] Hin.
    apply list_elem_of_lookup in Hin as [j Hj].
    apply lookup_zip_with_Some in Hj as (i' & x' & [= <- <-] & Hi & Hx).
    apply lookup_seq in Hi as [-> _]. done. }
  induction Hall as [|p l Hp _ IH]; [done|].
  rewrite !fmap_cons. cbn [omap list_omap]. by rewrite Hp, IH.
Qed.

Lemma stable_argsort_sorted a ys :
  gathered a (stable_argsort a) ys → Sorted (λ x y, f32_le x y = true) ys.
Proof.
  intros ->%stable_argsort_values.
  apply (Sorted_fmap snd pair_le (λ x y, f32_le x y = true)); [done|].
  apply sort_pairs_sorted.
Qed.

Lemma sorted_lookup_le (ys : list F) i j x y :
  Sorted (λ x y, f32_le x y = true) ys →
  ys !! i = Some x → ys !! j = Some y → (i < j)%nat → f32_le x y = true.
Proof.
  intros Hsorted.
  assert (Htrans : Transitive (λ x y : F, f32_le x y = true)).
  { intros a b c. apply f32_le_trans. }
  apply Sorted_StronglySorted in Hsorted; [|done].
  revert i j. induction Hsorted as [|z ys _ IH Hz]; intros i j Hi Hj Hij; [done|].
  destruct j as [|j]; [lia|]. cbn in Hj. destruct i as [|i].
  - cbn in Hi. injection Hi as ->.
    eapply Forall_forall in Hz; [exact Hz|]. by eapply list_elem_of_lookup_2.
  - cbn in Hi. apply (IH i j); [done..|lia].
Qed.

#[global] Instance stable_numpy : NumpySort F.
Proof.
  refine {| np_argsort := stable_argsort; np_select := λ a _, stable_argsort a |}.
  - apply stable_argsort_perm.
  - apply stable_argsort_sorted.
  - intros a _. apply stable_argsort_perm.
  - intros a k ys xk Hys Hk p x Hp. apply stable_argsort_sorted in Hys.
    split; intros Hlt; by eapply sorted_lookup_le.
Defined.
End StableSort.

(** *** The search on concrete matrices *)

Example similarity_scores_fan :
  similarity_scores [b32_one; b32_zero] fan_matrix
  = [b32_one; b32_zero; S754_finite false 11863283 (-24)].
Proof. reflexivity. Qed.

Example top_2_of_fan :
  get_top_n_similarities_and_indices [b32_one; b32_zero] fan_matrix 2
  = inr ([0; 2]%nat, [b32_one; S754_finite false 11863283 (-24)]).
Proof. reflexivity. Qed.

Lemma top_n_descending_witness :
  ∃ idx sims,
    get_top_n_similarities_and_indices [b32_one; b32_zero] fan_matrix 2 = inr (idx, sims)
    ∧ length idx = 2%nat ∧ length sims = 2%nat
    ∧ NoDup idx
    ∧ gathered (similarity_scores [b32_one; b32_zero] fan_matrix) idx sims
    ∧ descending sims
    ∧ (∀ i j x y,
         similarity_scores [b32_one; b32_zero] fan_matrix !! i = Some x → i ∉ idx → j ∈ idx →
         similarity_scores [b32_one; b32_zero] fan_matrix !! j = Some y → f32_le x y = true).
Proof.
  apply (top_n_descending [b32_one; b32_zero] fan_matrix 2).
  - reflexivity.
  - simpl. lia.
Defined.

(** C1 as stated: with two equal similarities the row of index 1 is
    returned before the row of index 0.  The final sort is ascending and is
    then reversed, so a sort that keeps equal scores in their order, as
    numpy's does on a short array, hands them back in descending index
    order. *)
Lemma top_n_ties_not_ascending :
  get_top_n_similarities_and_indices [b32_one] tied_matrix 2
  = inr ([1; 0]%nat, [b32_one; b32_one])
  ∧ ¬ ties_ascending [1; 0]%nat [b32_one; b32_one].
Proof.
  split; [reflexivity|]. intros Hties.
  specialize (Hties 0%nat 1%nat 0%nat b32_one b32_one eq_refl eq_refl eq_refl eq_refl eq_refl).
  lia.
Qed.

Lemma top_n_dimension_mismatch_witness :
  ∃ result, get_top_n_similarities_and_indices [b32_one; b32_zero] fan_matrix 3 = inr result.
Proof.
  apply (proj2 (top_n_dimension_mismatch [b32_one; b32_zero] fan_matrix 3)).
  - reflexivity.
  - simpl. lia.
Defined.

Example top_n_wrong_dimension :
  get_top_n_similarities_and_indices [b32_one; b32_zero] tied_matrix 1
  = inl (DimensionMismatch 2 1).
Proof. reflexivity. Qed.

(** C7 as stated: [n = -2] satisfies [n <= rows], the dimensionalities
    match, and the search still raises: [np.argpartition] rejects the
    position 2 it is asked to fix in an array of size 2. *)
Lemma top_n_negative_request_raises :
  length [b32_one] = ncols tied_matrix
  ∧ -2 ≤ Z.of_nat (length (mrows tied_matrix))
  ∧ get_top_n_similarities_and_indices [b32_one] tied_matrix (-2)
    = inl (KthOutOfBounds 2 2).
Proof. split; [reflexivity|]. split; [simpl; lia | reflexivity]. Qed.

(** ** The whole search (core.py, [search_flashcards]) *)

Section Search.
Context {F : Type} `{NumpySort F}.
Implicit Types (ext : externals F) (cfg : runtime_config F) (log : list call)
  (d : search_result F).

Lemma bind_run {A B} (m : M A) (f : A → M B) log :
  (m ≫= f) log
  = match m log with
    | (inl e, log') => (inl e, log')
    | (inr x, log') => f x log'
    end.
Proof. reflexivity. Qed.

Lemma bind_invoke {A B} (c : call) (r : exn + A) (f : A → M B) log :
  (invoke c r ≫= f) log
  = match r with
    | inl e => (inl e, log ++ [c])
    | inr x => f x (log ++ [c])
    end.
Proof. rewrite bind_run. unfold invoke. by destruct r. Qed.

Lemma bind_lift {A B} (r : exn + A) (f : A → M B) log :
  (lift r ≫= f) log
  = match r with
    | inl e => (inl e, log)
    | inr x => f x log
    end.
Proof. rewrite bind_run. unfold lift. by destruct r. Qed.

Lemma chat_with_final_llm_run ext prompt log :
  chat_with_final_llm ext prompt log
  = (inr (generated_text ext prompt), log ++ [CallChat prompt]).
Proof.
  unfold chat_with_final_llm, try_except, invoke, generated_text.
  by destruct (chat_completion ext prompt).
Qed.

Lemma check_anki_status_run ext od log :
  check_anki_status ext od log
  = (inr (bridge_status ext (payload_of od)), log ++ [CallAnkiScript (payload_of od)]).
Proof.
  unfold check_anki_status, try_except, bridge_status, payload_of.
  rewrite bind_invoke. by destruct (run_anki_script ext _).
Qed.

Lemma search_body_run ext cfg query_text log :
  search_body ext cfg query_text log
  = match search_stages ext cfg query_text log with
    | (inl e, log1) => (inl e, log1)
    | (inr (cards, reranked, prompt), log1) =>
        let d := aggregate query_text cards reranked prompt (generated_text ext prompt) in
        (inr (set_anki_status (bridge_status ext (payload_of (Some d))) d),
         log1 ++ [CallChat prompt] ++ [CallAnkiScript (payload_of (Some d))])
    end.
Proof.
  unfold search_body, search_stages.
  rewrite !bind_invoke.
  destruct (get_embedding ext query_text) as [e|query_embed]; [done|].
  rewrite !bind_lift.
  destruct (get_top_n_similarities_and_indices _ _ _) as [e|[idx sims]]; [done|].
  rewrite !bind_lift.
  destruct (prepare_top_cards_list _ _ _) as [e|cards]; [done|].
  rewrite !(bind_run (rerank_workflow _ _ _ _)).
  destruct (rerank_workflow ext query_text cards _ _) as [[e|reranked] log1]; [done|].
  rewrite !bind_lift.
  destruct (str_format ext _ _) as [e|header]; [done|].
  rewrite (bind_run (chat_with_final_llm _ _)), chat_with_final_llm_run.
  rewrite (bind_run (check_anki_status _ _)), check_anki_status_run.
  cbn [mret M_ret]. unfold aggregate. by rewrite <- app_assoc.
Qed.

(** The search, stage by stage: a failure before the prompt gives [None];
    after it nothing can fail any more. *)
Lemma search_flashcards_run ext cfg query_text log :
  search_flashcards ext cfg query_text log
  = match search_stages ext cfg query_text log with
    | (inl _, log1) => (inr None, log1)
    | (inr (cards, reranked, prompt), log1) =>
        let d := aggregate query_text cards reranked prompt (generated_text ext prompt) in
        (inr (Some (set_anki_status (bridge_status ext (payload_of (Some d))) d)),
         log1 ++ [CallChat prompt] ++ [CallAnkiScript (payload_of (Some d))])
    end.
Proof.
  unfold search_flashcards, try_except.
  rewrite (bind_run (search_body _ _ _)), search_body_run.
  by destruct (search_stages ext cfg query_text log) as [[e|[[cards reranked] prompt]] log1].
Qed.
Lemma format_nids_for_anki_fields d :
  ∃ value, format_nids_for_anki d = set_formatted_nids value d.
Proof. unfold format_nids_for_anki. destruct (extracted_nid_list d); eauto. Qed.

Lemma aggregate_fields query_text (cards : list (sim_card F)) reranked prompt answer :
  let d := aggregate query_text cards reranked prompt answer in
  query d = query_text ∧ similarity_top_cards_full_fat d = cards
  ∧ reranked_cards d = reranked ∧ llm_prompt d = prompt ∧ llm_response d = answer
  ∧ extracted_nid_list d = extract_nid answer ∧ anki_status d = JNull
  ∧ llm_ranked_cards d = create_llm_ranked_cards reranked (extract_nid answer).
Proof.
  unfold aggregate.
  destruct (format_nids_for_anki_fields
    (SearchResult query_text cards reranked prompt answer (extract_nid answer) "" JNull []))
    as [value ->].
  by repeat split.
Qed.

(** The failures that do abort the search: whatever raises before the
    prompt is assembled gives the single result [None]. *)
Lemma search_flashcards_aborts ext cfg query_text log e log1 :
  search_stages ext cfg query_text log = (inl e, log1) →
  search_flashcards ext cfg query_text log = (inr None, log1).
Proof. intros Hstages. by rewrite search_flashcards_run, Hstages. Qed.

Lemma search_stages_embedding_failure ext cfg query_text log e :
  get_embedding ext query_text = inl e →
  search_stages ext cfg query_text log = (inl e, log ++ [CallEmbedding query_text]).
Proof. intros He. unfold search_stages. by rewrite bind_invoke, He. Qed.

Lemma search_stages_dimension_mismatch ext cfg query_text log query_embed :
  get_embedding ext query_text = inr query_embed →
  length query_embed ≠ ncols (embeddings cfg) →
  search_stages ext cfg query_text log
  = (inl (DimensionMismatch (length query_embed) (ncols (embeddings cfg))),
     log ++ [CallEmbedding query_text]).
Proof.
  intros He Hne. unfold search_stages. rewrite bind_invoke, He, bind_lift.
  unfold get_top_n_similarities_and_indices.
  apply Nat.eqb_neq in Hne. by rewrite Hne.
Qed.



End Search.

(** ** The search on concrete services *)

(** The scenario of the design document: the generation provider names one
    card, and the aggregate ranks exactly that card, first. *)
Example search_flashcards_end_to_end :
  (search_flashcards (demo_services (λ _, inr "Best: [nid:1700000000001].") mac_with_anki)
     demo_config "valves" []).1
  = inr (Some (SearchResult "valves" demo_sim_cards demo_rel_cards demo_prompt
                 "Best: [nid:1700000000001]." ["1700000000001"] "nid:1700000000001"
                 (JString "Anki is running")
                 [LlmCard (RelCard (SimCard 1 "1700000000001" b32_one "Aortic valve") b32_one 2) 1])).
Proof. vm_compute. reflexivity. Qed.



Example json_loads_malformed : JsonText.loads "not json" = None ∧ JsonText.loads "" = None.
Proof. split; reflexivity. Qed.



Example search_flashcards_with_broken_script :
  (search_flashcards broken_script_services demo_config "valves" []).1
  = inr (Some (SearchResult "valves" demo_sim_cards demo_rel_cards demo_prompt
                 "Best: [nid:1700000000001]." ["1700000000001"] "nid:1700000000001"
                 (JString "Error: Invalid response format from script")
                 [LlmCard (RelCard (SimCard 1 "1700000000001" b32_one "Aortic valve") b32_one 2) 1])).
Proof. vm_compute. reflexivity. Qed.

(** The script on other inputs than a query string: a number under the
    key is handed on like a string, 0 counting as no query; input that is
    no dictionary ends the script before it prints. *)
Example process_other_inputs :
  AnkiScript.process JsonText.loads mac_with_anki
    ("{" +:+ json_dumps_string "formatted_nids" +:+ ": 0}")
  = AnkiScript.dumps_response
      (AnkiScript.Response "Anki is running" false "Failed to focus/populate Anki") +:+ nl
  ∧ AnkiScript.process JsonText.loads mac_with_anki
      ("{" +:+ json_dumps_string "formatted_nids" +:+ ": 17}")
    = AnkiScript.dumps_response
        (AnkiScript.Response "Anki is running" true
           "Successfully opened Anki browser with query") +:+ nl
  ∧ AnkiScript.process JsonText.loads mac_with_anki "[1]" = "".
Proof. split_and!; vm_compute; reflexivity. Qed.

Example number_is_zero_literals :
  number_is_zero "0" = true ∧ number_is_zero "-0.0E+3" = true
  ∧ number_is_zero "1e-400" = true ∧ number_is_zero "5e-324" = false
  ∧ number_is_zero "17" = false ∧ number_is_zero "NaN" = false.
Proof. split_and!; vm_compute; reflexivity. Qed.

Example check_anki_status_unsupported_platform :
  (check_anki_status (demo_services failing_chat linux_host) None []).1
  = inr (JString "myy_error").
Proof. vm_compute. reflexivity. Qed.

(** * Further properties of the code *)

(** ** What the extractor returns (core.py, [extract_nid]) *)

Section ExtractFacts.
Implicit Types (s t d post text : string) (c : ascii) (k : nat).

Lemma occurrences_are_nids s : Forall is_nid (occurrences s).
Proof.
  induction s as [|c s IH]; [constructor|]. cbn [occurrences].
  destruct (match_nid (String c s)) as [d|] eqn:Hm; [|done].
  constructor; [|done]. by apply match_nid_Some in Hm as (_ & _ & Hnid).
Qed.

Lemma match_nid_length s d : match_nid s = Some d → (19 ≤ String.length s)%nat.
Proof.
  intros (post & -> & Hlen & _)%match_nid_Some.
  rewrite !length_append, Hlen. cbn. lia.
Qed.

Lemma findall_nid_length k s :
  (k ≤ String.length s)%nat →
  (19 * length (findall_nid k s) + k ≤ String.length s)%nat.
Proof.
  revert k. induction s as [|c s IH]; intros k Hk; [cbn in *; lia|].
  destruct k as [|k]; cbn [findall_nid String.length].
  - destruct (match_nid (String c s)) as [d|] eqn:Hm.
    + apply match_nid_length in Hm. cbn [String.length] in Hm.
      specialize (IH 18%nat). cbn [length]. lia.
    + specialize (IH 0%nat). lia.
  - cbn [String.length] in Hk. specialize (IH k). lia.
Qed.

(** X1: every identifier the extractor returns is a string of exactly 13
    decimal digits, and since matches cannot overlap a text of [n]
    characters yields at most [n / 19] identifiers. *)
Theorem extract_nid_sound text :
  Forall is_nid (extract_nid text)
  ∧ (19 * length (extract_nid text) ≤ String.length text)%nat.
Proof.
  split.
  - rewrite extract_nid_occurrences. apply occurrences_are_nids.
  - pose proof (findall_nid_length 0 text). unfold extract_nid. lia.
Qed.

(** X2: a token never contains a character other than the brackets, the
    letters of [nid:] and digits, so extraction distributes over two texts
    joined by such a character (a line break, a space): nothing is found
    across the joint and nothing is lost. *)
Theorem extract_nid_app_break a c b :
  breaker c →
  extract_nid (a +:+ String c b) = extract_nid a ++ extract_nid b.
Proof. intros Hc. rewrite !extract_nid_occurrences. by apply occurrences_break. Qed.
End ExtractFacts.

Lemma extract_nid_app_break_witness :
  extract_nid ("see [nid:1700000000001]" +:+ String LF "and [nid:1700000000002]")
  = extract_nid "see [nid:1700000000001]" ++ extract_nid "and [nid:1700000000002]".
Proof. apply extract_nid_app_break. by repeat split. Defined.

(** ** What the extractor finds in an assembled prompt *)

Section PromptFacts.
Context {F : Type}.
Implicit Types (cards : list (rel_card F)).

Lemma occurrences_card_lines_all cards :
  Forall (λ card, is_nid (nid (rel_base card))) cards →
  occurrences (card_lines cards) = concat (card_tokens <$> cards).
Proof.
  induction cards as [|card cards IH]; [done|].
  intros [Hnid Hnids]%Forall_cons.
  cbn [card_lines foldr]. fold (card_lines cards). unfold card_line, nl.
  rewrite !append_assoc, !append_cons, !append_nil_l.
  rewrite !occurrences_head by done.
  rewrite occurrences_token_cons by done.
  rewrite occurrences_head by done.
  rewrite (occurrences_break _ LF) by apply breaker_LF.
  rewrite occurrences_tokens, fmap_cons. cbn [concat card_tokens app].
  f_equal. f_equal. by apply IH.
Qed.

(** X3: when the card identifiers are 13-digit numbers, the extractor
    applied to the assembled prompt returns the tokens of the header, then
    those of the query, then for each card in order its identifier followed
    by the tokens of its content: a token written in a header, a query or a
    card content is extracted like a card's own. *)
Theorem extract_nid_of_any_prompt header_that_is_prompt query_text cards :
  Forall (λ card, is_nid (nid (rel_base card))) cards →
  extract_nid (format_flashcard_results_for_llm header_that_is_prompt query_text cards)
  = tokens_in "nid" 13 header_that_is_prompt ++ tokens_in "nid" 13 query_text
    ++ concat (card_tokens <$> cards).
Proof.
  intros Hnids.
  rewrite extract_nid_occurrences. unfold format_flashcard_results_for_llm.
  rewrite foldl_card_lines. unfold nl.
  rewrite !append_assoc, !append_cons, !append_nil_l.
  rewrite !occurrences_head by done.
  rewrite (occurrences_break header_that_is_prompt LF) by apply breaker_LF.
  rewrite occurrences_tokens. f_equal.
  rewrite !occurrences_head by done.
  rewrite (occurrences_break query_text LF) by apply breaker_LF.
  rewrite occurrences_tokens. f_equal.
  rewrite !occurrences_head by done.
  by apply occurrences_card_lines_all.
Qed.
End PromptFacts.

Lemma extract_nid_of_any_prompt_witness :
  extract_nid (format_flashcard_results_for_llm "Not [nid:9999999999999]." "valves" pool_cards)
  = ["9999999999999"; "1700000000002"; "1700000000001"].
Proof.
  apply (extract_nid_of_any_prompt "Not [nid:9999999999999]." "valves" pool_cards).
  repeat constructor.
Defined.

(** ** The script's verdict (anki_script.py) *)

Section ScriptFacts.
Import AnkiScript.
Implicit Types (h : host) (built : string).

Lemma supported_platform_test h :
  negb (bool_decide (platform_system h = "Darwin")
        || bool_decide (platform_system h = "Windows")) = false
  ↔ supported_platform h.
Proof.
  unfold supported_platform. rewrite negb_false_iff, orb_true_iff.
  by rewrite !bool_decide_eq_true.
Qed.

(** X4: the script reports success exactly when the platform is macOS or
    Windows, Anki runs, AnkiConnect answers the version probe, the window
    could be focused, the identifier query is not empty and AnkiConnect
    accepts it; its status is ["myy_error"] exactly on another platform,
    ["Anki not running"] exactly when Anki does not run on a supported one,
    and ["Anki is running"] otherwise, whatever happens after the check. *)
Theorem main_verdict h built :
  (r_success (main h built) = true
   ↔ supported_platform h ∧ anki_running h = true ∧ is_Some (anki_connect_version h)
     ∧ window_focused h = true ∧ built ≠ "" ∧ gui_browse h built = true)
  ∧ (r_anki_status (main h built) = "myy_error" ↔ ¬ supported_platform h)
  ∧ (r_anki_status (main h built) = "Anki not running"
     ↔ supported_platform h ∧ anki_running h = false)
  ∧ (r_anki_status (main h built) = "Anki is running"
     ↔ supported_platform h ∧ anki_running h = true).
Proof.
  pose proof (supported_platform_test h) as Hos. unfold main, main_with, populate_anki_browser.
  destruct (negb _) eqn:Htest.
  { assert (¬ supported_platform h) as Hno by (rewrite <- Hos; done).
    cbn [r_success r_anki_status]. intuition (try discriminate; try congruence). }
  assert (supported_platform h) as Hyes by (by apply Hos).
  destruct (anki_running h) eqn:Hrun; [|cbn [r_success r_anki_status];
    intuition (try discriminate; try congruence)].
  destruct (anki_connect_version h) as [v|] eqn:Hver.
  - assert (is_Some (Some v)) as Hsome by eauto.
    destruct (window_focused h) eqn:Hfocus; cbn [andb];
      [|cbn [r_success r_anki_status]; intuition (try discriminate; try congruence)].
    destruct (bool_decide (built = "")) eqn:Hempty;
      [apply bool_decide_eq_true in Hempty
      |apply bool_decide_eq_false in Hempty; destruct (gui_browse h built) eqn:Hbrowse];
      cbn [r_success r_anki_status]; intuition (try discriminate; try congruence).
  - assert (¬ is_Some (@None Z)) as Hnone by (intros [? Hx]; discriminate Hx).
    cbn [r_success r_anki_status]. intuition (try discriminate; try congruence).
Qed.

Lemma any_isdigit_app a b : any_isdigit (a +:+ b) = any_isdigit a || any_isdigit b.
Proof.
  induction a as [|c a IH]; [done|]. rewrite append_cons. cbn [any_isdigit].
  by rewrite IH, orb_assoc.
Qed.

Lemma is_nid_any_isdigit d : is_nid d → any_isdigit d = true.
Proof.
  intros [Hlen Hd]. destruct d as [|c d]; [discriminate Hlen|].
  cbn in Hd |- *. apply andb_true_iff in Hd as [Hc _].
  unfold py_isdigit. unfold is_digit in Hc. by rewrite Hc.
Qed.
End ScriptFacts.

Section QueryFacts.
Context {F : Type}.
Implicit Types (d : search_result F) (h : AnkiScript.host).

(** X5: when no identifier was extracted the query handed to the script is
    empty, and on an empty query the script never reports success, whatever
    the state of the host. *)
Theorem no_identifier_no_success d h :
  extracted_nid_list d = [] →
  formatted_nids (format_nids_for_anki d) = ""
  ∧ AnkiScript.r_success (AnkiScript.main h (formatted_nids (format_nids_for_anki d))) = false.
Proof.
  intros Hnone. unfold format_nids_for_anki. rewrite Hnone.
  cbn [formatted_nids set_formatted_nids]. split; [done|].
  unfold AnkiScript.main, AnkiScript.main_with, AnkiScript.populate_anki_browser.
  destruct (negb _); [done|]. destruct (AnkiScript.anki_running h); [|done].
  destruct (AnkiScript.anki_connect_version h); [|done].
  by rewrite bool_decide_eq_true_2, andb_false_r.
Qed.

(** X6: the query built from the identifiers extracted from a text passes
    the script's own validation ([validate_nids_query]) exactly when at
    least one identifier was extracted. *)
Theorem extracted_query_validates d text :
  extracted_nid_list d = extract_nid text →
  AnkiScript.validate_nids_query (formatted_nids (format_nids_for_anki d)) = true
  ↔ extract_nid text ≠ [].
Proof.
  intros Hids. unfold format_nids_for_anki. rewrite Hids.
  pose proof (occurrences_are_nids text) as Hnids.
  rewrite <- extract_nid_occurrences in Hnids.
  destruct (extract_nid text) as [|v rest]; cbn [formatted_nids set_formatted_nids].
  - split; [intros Hx; discriminate Hx | done].
  - split; [done|]. intros _. unfold AnkiScript.validate_nids_query.
    rewrite str_join_cons, !any_isdigit_app.
    apply Forall_cons in Hnids as [Hv _]. rewrite (is_nid_any_isdigit v Hv).
    rewrite orb_true_r. cbn [orb andb].
    rewrite andb_true_r. apply andb_true_iff. split.
    + apply negb_true_iff, bool_decide_eq_false. intros Hx. discriminate Hx.
    + apply bool_decide_eq_true. eexists. by apply strip_prefix_Some.
Qed.
End QueryFacts.

Lemma no_identifier_no_success_witness :
  AnkiScript.r_success
    (AnkiScript.main mac_with_anki (formatted_nids (format_nids_for_anki no_id_result)))
  = false.
Proof. by apply (no_identifier_no_success no_id_result mac_with_anki). Defined.

Lemma extracted_query_validates_witness :
  AnkiScript.validate_nids_query (formatted_nids (format_nids_for_anki one_id_result)) = true.
Proof.
  apply (extracted_query_validates one_id_result "Use [nid:1700000000001]."); [reflexivity|].
  discriminate.
Defined.

(** ** More on the top-N search (flow.py) *)

Section TopNEdges.
Context {F : Type} `{NumpySort F}.
Implicit Types (scores sims : list F) (idx : list nat) (n : Z)
  (query : list F) (embeddings : matrix F).

Lemma slice_from_drop {A} (part : list A) (start : Z) : ∃ k, slice_from part start = drop k part.
Proof. unfold slice_from. eauto. Qed.

(** Once the partial selection is through, nothing else can raise. *)
Lemma select_top_after_argpartition scores n part :
  argpartition scores (- n) = inr part → ∃ result, select_top scores n = inr result.
Proof.
  intros Hpart. unfold select_top. rewrite Hpart. cbn [mbind exn_bind].
  assert (part ≡ₚ seq 0 (length scores)) as Hperm.
  { unfold argpartition in Hpart. destruct (negb _ && _); [discriminate Hpart|].
    injection Hpart as <-. apply np_select_perm. }
  destruct (slice_from_drop part (- n)) as [k ->].
  destruct (select_top_steps scores part k Hperm)
    as (keys & idx & sims & -> & Hidx & Hsims & _).
  cbn [mbind exn_bind]. rewrite Hidx. cbn [mbind exn_bind]. rewrite Hsims. eauto.
Qed.

Lemma argpartition_range scores n :
  let len := Z.of_nat (length scores) in
  (len = 0 ∨ - len < n ≤ len → ∃ part, argpartition scores (- n) = inr part)
  ∧ (¬ (len = 0 ∨ - len < n ≤ len) →
     argpartition scores (- n)
     = inl (KthOutOfBounds (if 0 <? n then len - n else - n) (length scores))).
Proof.
  intros len. unfold argpartition. fold len.
  assert (Hk : (if - n <? 0 then - n + len else - n) = if 0 <? n then len - n else - n).
  { destruct (Z.ltb_spec (- n) 0), (Z.ltb_spec 0 n); lia. }
  rewrite Hk. destruct (negb _ && _) eqn:Hcond.
  - apply andb_true_iff in Hcond as [Hlen Hrange].
    apply negb_true_iff, Z.eqb_neq in Hlen.
    split; [|done]. intros Hok. exfalso.
    apply orb_true_iff in Hrange as [Hr%Z.ltb_lt|Hr%Z.leb_le];
      destruct (Z.ltb_spec 0 n); lia.
  - split; [eauto|]. intros Hbad. exfalso. apply Hbad.
    apply andb_false_iff in Hcond as [Hlen|Hrange].
    + apply negb_false_iff, Z.eqb_eq in Hlen. by left.
    + apply orb_false_iff in Hrange as [Hr1%Z.ltb_ge Hr2%Z.leb_gt].
      right. destruct (Z.ltb_spec 0 n); lia.
Qed.

(** X7: for a query of the matrix's dimensionality, the search returns a
    result exactly when the matrix is empty or [-rows < n <= rows]; for any
    other [n] it raises the out-of-bounds error of [np.argpartition], whose
    position is [rows - n] for a positive [n] and [-n] otherwise. *)
Theorem top_n_request_range query embeddings n :
  length query = ncols embeddings →
  let rows := Z.of_nat (length (mrows embeddings)) in
  ((∃ result, get_top_n_similarities_and_indices query embeddings n = inr result)
   ↔ rows = 0 ∨ - rows < n ≤ rows)
  ∧ (¬ (rows = 0 ∨ - rows < n ≤ rows) →
     get_top_n_similarities_and_indices query embeddings n
     = inl (KthOutOfBounds (if 0 <? n then rows - n else - n) (length (mrows embeddings)))).
Proof.
  intros Hdim rows. unfold get_top_n_similarities_and_indices.
  rewrite Hdim, Nat.eqb_refl. cbn [negb].
  pose proof (argpartition_range (similarity_scores query embeddings) n) as [Hok Hbad].
  rewrite length_similarity_scores in Hok, Hbad. cbn zeta in Hok, Hbad. fold rows in Hok, Hbad.
  assert (Hfail : ¬ (rows = 0 ∨ - rows < n ≤ rows) →
    select_top (similarity_scores query embeddings) n
    = inl (KthOutOfBounds (if 0 <? n then rows - n else - n) (length (mrows embeddings)))).
  { intros Hno. unfold select_top. by rewrite (Hbad Hno). }
  split; [split|done].
  - intros [result Hres].
    destruct (decide (rows = 0 ∨ - rows < n ≤ rows)) as [|Hno]; [done|].
    rewrite (Hfail Hno) in Hres. discriminate Hres.
  - intros Hin. destruct (Hok Hin) as [part Hpart].
    by eapply select_top_after_argpartition.
Qed.

(** X8: a request for zero results does not return nothing: the slice
    [[-0:]] is the whole array, so every row comes back, each once, in
    non-increasing order of similarity. *)
Theorem top_zero_returns_every_row query embeddings :
  length query = ncols embeddings →
  ∃ idx sims,
    get_top_n_similarities_and_indices query embeddings 0 = inr (idx, sims)
    ∧ idx ≡ₚ seq 0 (length (mrows embeddings))
    ∧ gathered (similarity_scores query embeddings) idx sims
    ∧ descending sims.
Proof.
  intros Hdim. unfold get_top_n_similarities_and_indices.
  rewrite Hdim, Nat.eqb_refl. cbn [negb].
  destruct (select_top_unfold (similarity_scores query embeddings) 0)
    as (keys & idx & sims & Hsel & _ & Hperm & Hgath & Hdesc); [lia|].
  exists idx, sims. split_and!; [done| |done..].
  rewrite Hperm. unfold pivot. cbn [Z.eqb drop].
  by rewrite np_select_perm, length_similarity_scores.
Qed.
End TopNEdges.

Lemma top_n_request_range_witness :
  ∃ result, get_top_n_similarities_and_indices [b32_one; b32_zero] fan_matrix (-2) = inr result.
Proof.
  apply (proj1 (top_n_request_range [b32_one; b32_zero] fan_matrix (-2) eq_refl)).
  right. simpl. lia.
Defined.

Example top_n_too_many :
  get_top_n_similarities_and_indices [b32_one; b32_zero] fan_matrix 4
  = inl (KthOutOfBounds (-1) 3).
Proof. reflexivity. Qed.

Lemma top_zero_returns_every_row_witness :
  ∃ idx sims,
    get_top_n_similarities_and_indices [b32_one; b32_zero] fan_matrix 0 = inr (idx, sims)
    ∧ idx ≡ₚ seq 0 3
    ∧ gathered (similarity_scores [b32_one; b32_zero] fan_matrix) idx sims
    ∧ descending sims.
Proof. apply (top_zero_returns_every_row [b32_one; b32_zero] fan_matrix). reflexivity. Defined.

(** ** The similarity cards (flow.py, [prepare_top_cards_list]) *)

Section CardFacts.
Context {F : Type}.
Implicit Types (idx : list nat) (sims : list F) (dataframe : list flashcard)
  (rank : nat) (pairs : list (nat * F)).

Lemma prepare_top_cards_from_rows rank pairs dataframe :
  Forall (λ pair, pair.1 < length dataframe)%nat pairs →
  ∃ cards,
    prepare_top_cards_from rank pairs dataframe = inr cards
    ∧ length cards = length pairs
    ∧ ∀ p i s, pairs !! p = Some (i, s) →
        ∃ row, dataframe !! i = Some row
          ∧ cards !! p = Some (SimCard (rank + p) (row_nid row) s (flashcard_content row)).
Proof.
  revert rank. induction pairs as [|[i s] pairs IH]; intros rank Hall.
  - exists []. by split_and!.
  - apply Forall_cons in Hall as [Hi Hall]. cbn [fst] in Hi.
    destruct (lookup_lt_is_Some_2 dataframe i Hi) as [row Hrow].
    destruct (IH (S rank) Hall) as (cards & Hrun & Hlen & Hcards).
    cbn [prepare_top_cards_from]. rewrite Hrow, Hrun. cbn [mbind exn_bind mret exn_ret].
    eexists. split; [reflexivity|]. split; [cbn [length]; by rewrite Hlen|].
    intros [|p] i' s' Hp.
    + injection Hp as <- <-. exists row. by rewrite Nat.add_0_r.
    + destruct (Hcards p i' s' Hp) as (row' & Hrow' & Hcard).
      exists row'. split; [done|]. cbn [lookup list_lookup].
      by replace (rank + S p)%nat with (S rank + p)%nat by lia.
Qed.

Lemma prepare_top_cards_from_missing rank pairs dataframe p i s :
  pairs !! p = Some (i, s) →
  (length dataframe ≤ i)%nat →
  Forall (λ pair, pair.1 < length dataframe)%nat (take p pairs) →
  prepare_top_cards_from rank pairs dataframe
  = inl (IndexError (Z.of_nat i) (length dataframe)).
Proof.
  revert rank p. induction pairs as [|[i0 s0] pairs IH]; intros rank p Hp Hi Hbefore;
    [done|].
  destruct p as [|p].
  - injection Hp as -> ->. cbn [prepare_top_cards_from].
    by rewrite (lookup_ge_None_2 dataframe i Hi).
  - cbn [take] in Hbefore. apply Forall_cons in Hbefore as [Hi0 Hbefore]. cbn [fst] in Hi0.
    destruct (lookup_lt_is_Some_2 dataframe i0 Hi0) as [row Hrow].
    cbn [prepare_top_cards_from]. rewrite Hrow.
    by rewrite (IH (S rank) p Hp Hi Hbefore).
Qed.

(** X9: when every index names a row of the table, the cards are built
    for the pairs of [zip]: as many as the shorter of the two arrays, the
    card at position [p] carrying the rank [p + 1], the identifier and the
    content of the row at the [p]-th index, and the [p]-th score. *)
Theorem prepare_top_cards_list_rows idx sims dataframe :
  Forall (λ i, i < length dataframe)%nat idx →
  ∃ cards,
    prepare_top_cards_list idx sims dataframe = inr cards
    ∧ length cards = (length idx `min` length sims)%nat
    ∧ ∀ p i s, idx !! p = Some i → sims !! p = Some s →
        ∃ row, dataframe !! i = Some row
          ∧ cards !! p = Some (SimCard (S p) (row_nid row) s (flashcard_content row)).
Proof.
  intros Hall. unfold prepare_top_cards_list.
  destruct (prepare_top_cards_from_rows 1 (zip idx sims) dataframe)
    as (cards & Hrun & Hlen & Hcards).
  { apply Forall_forall. intros [i s] Hin. apply elem_of_zip_l in Hin.
    by eapply Forall_forall in Hall. }
  exists cards. split; [done|]. split; [by rewrite Hlen, length_zip|].
  intros p i s Hi Hs. apply Hcards. rewrite lookup_zip_with, Hi. cbn. by rewrite Hs.
Qed.

(** X10: an index beyond the table raises the [IndexError] of [iloc] for
    the first such index among the pairs, and no card is returned, also not
    those built before. *)
Theorem prepare_top_cards_list_missing_row idx sims dataframe p i :
  idx !! p = Some i →
  (p < length sims)%nat →
  (length dataframe ≤ i)%nat →
  Forall (λ i', i' < length dataframe)%nat (take p idx) →
  prepare_top_cards_list idx sims dataframe
  = inl (IndexError (Z.of_nat i) (length dataframe)).
Proof.
  intros Hi Hp Hout Hbefore. unfold prepare_top_cards_list.
  destruct (lookup_lt_is_Some_2 sims p Hp) as [s Hs].
  apply (prepare_top_cards_from_missing 1 _ _ p i s); [|done|].
  - rewrite lookup_zip_with, Hi. cbn. by rewrite Hs.
  - apply Forall_forall. intros [i' s'] Hin.
    rewrite (zip_with_take pair p idx sims) in Hin. apply elem_of_zip_l in Hin.
    by eapply Forall_forall in Hbefore.
Qed.
End CardFacts.

(** ** The similarity stage as a whole (flow.py) *)

Section StageFacts.
Context {F : Type} `{NumpySort F}.
Implicit Types (scores sims : list F) (idx : list nat) (n : Z)
  (query : list F) (embeddings : matrix F) (dataframe : list flashcard)
  (pairs : list (nat * F)) (rank : nat).

(** Whatever was asked for, a result of the selection is sound. *)
Lemma select_top_result scores n idx sims :
  select_top scores n = inr (idx, sims) →
  NoDup idx
  ∧ Forall (λ i, i < length scores)%nat idx
  ∧ gathered scores idx sims
  ∧ descending sims
  ∧ Z.of_nat (length idx)
    = (if Z.of_nat (length scores) =? 0 then 0
       else if 0 <? n then n else Z.of_nat (length scores) + n).
Proof.
  intros Hsel.
  assert (Hrange : Z.of_nat (length scores) = 0
                   ∨ - Z.of_nat (length scores) < n ≤ Z.of_nat (length scores)).
  { destruct (decide (Z.of_nat (length scores) = 0
                      ∨ - Z.of_nat (length scores) < n ≤ Z.of_nat (length scores)))
      as [|Hno]; [done|].
    unfold select_top in Hsel.
    rewrite (proj2 (argpartition_range scores n) Hno) in Hsel. discriminate Hsel. }
  unfold select_top in Hsel.
  destruct (argpartition scores (- n)) as [e|part] eqn:Hpart; [discriminate Hsel|].
  cbn [mbind exn_bind] in Hsel.
  assert (Hperm : part ≡ₚ seq 0 (length scores)).
  { unfold argpartition in Hpart. destruct (negb _ && _); [discriminate Hpart|].
    injection Hpart as <-. apply np_select_perm. }
  assert (Hlen : length part = length scores).
  { by rewrite (Permutation_length Hperm), length_seq. }
  unfold slice_from in Hsel. rewrite Hlen in Hsel.
  set (k := Z.to_nat _) in Hsel.
  destruct (select_top_steps scores part k Hperm)
    as (keys & idx' & sims' & Hkeys & Hidx & Hsims & Hsame & Hgath & Hdesc).
  rewrite Hkeys in Hsel. cbn [mbind exn_bind] in Hsel.
  rewrite Hidx in Hsel. cbn [mbind exn_bind] in Hsel.
  rewrite Hsims in Hsel. cbn [mbind exn_bind mret exn_ret] in Hsel.
  injection Hsel as <- <-.
  assert (Hnodup : NoDup part) by (rewrite Hperm; apply NoDup_seq).
  split_and!.
  - rewrite Hsame. rewrite <- (take_drop k part) in Hnodup.
    by apply NoDup_app in Hnodup as (_ & _ & Hdrop).
  - by eapply gathered_bound.
  - done.
  - done.
  - rewrite (Permutation_length Hsame), length_drop, Hlen. subst k.
    destruct (Z.eqb_spec (Z.of_nat (length scores)) 0), (Z.ltb_spec (- n) 0),
      (Z.ltb_spec 0 n); lia.
Qed.

(** X11: whenever the search returns, for any integer [n], the indices
    are distinct, the scores are the similarities at the indices, in
    non-increasing order, and their number is [n] for a positive [n] and
    [rows + n] otherwise: all rows for 0, and for a negative [n] all rows
    but [-n]. *)
Theorem top_n_result_shape query embeddings n idx sims :
  get_top_n_similarities_and_indices query embeddings n = inr (idx, sims) →
  let rows := Z.of_nat (length (mrows embeddings)) in
  NoDup idx
  ∧ gathered (similarity_scores query embeddings) idx sims
  ∧ descending sims
  ∧ Z.of_nat (length idx) = (if rows =? 0 then 0 else if 0 <? n then n else rows + n).
Proof.
  unfold get_top_n_similarities_and_indices.
  destruct (negb _); [intros Hx; discriminate Hx|].
  intros Hsel.
  apply select_top_result in Hsel as (Hnodup & _ & Hgath & Hdesc & Hcount).
  rewrite length_similarity_scores in Hcount. by split_and!.
Qed.

Lemma prepare_top_cards_from_fields rank pairs dataframe cards :
  prepare_top_cards_from rank pairs dataframe = inr cards →
  cosine_similarity_rank <$> cards = seq rank (length pairs)
  ∧ cosine_similarity_score <$> cards = pairs.*2
  ∧ Forall2 (λ i card, ∃ row, dataframe !! i = Some row ∧ nid card = row_nid row
                              ∧ content card = flashcard_content row) (pairs.*1) cards.
Proof.
  revert rank cards. induction pairs as [|[i s] pairs IH]; intros rank cards Hrun.
  - injection Hrun as <-. by split_and!.
  - cbn [prepare_top_cards_from] in Hrun.
    destruct (dataframe !! i) as [row|] eqn:Hrow; [|discriminate Hrun].
    destruct (prepare_top_cards_from (S rank) pairs dataframe) as [e|rest] eqn:Hrest;
      [discriminate Hrun|].
    cbn [mbind exn_bind mret exn_ret] in Hrun. injection Hrun as <-.
    destruct (IH (S rank) rest Hrest) as (Hranks & Hscores & Hrows).
    rewrite !fmap_cons, Hranks, Hscores. split_and!; [done..|].
    constructor; [|done]. by exists row.
Qed.

(** X12: the two steps of the similarity stage fit together.  When the
    table has at least as many rows as the matrix, whatever the search
    returns is turned into cards without an error: one card per result,
    ranked [1, 2, ...] in the order of the results, its score the
    similarity of its row, the scores in non-increasing order, and no row
    of the table used twice. *)
Theorem similarity_stage_cards query embeddings n dataframe idx sims :
  get_top_n_similarities_and_indices query embeddings n = inr (idx, sims) →
  (length (mrows embeddings) ≤ length dataframe)%nat →
  ∃ cards,
    prepare_top_cards_list idx sims dataframe = inr cards
    ∧ cosine_similarity_rank <$> cards = seq 1 (length idx)
    ∧ cosine_similarity_score <$> cards = sims
    ∧ descending (cosine_similarity_score <$> cards)
    ∧ NoDup idx
    ∧ Forall2 (λ i card, ∃ row, dataframe !! i = Some row ∧ nid card = row_nid row
                                ∧ content card = flashcard_content row) idx cards.
Proof.
  unfold get_top_n_similarities_and_indices.
  destruct (negb _); [intros Hx; discriminate Hx|].
  intros Hsel Hrows.
  apply select_top_result in Hsel as (Hnodup & Hbound & Hgath & Hdesc & _).
  rewrite length_similarity_scores in Hbound.
  pose proof (Forall2_length _ _ _ Hgath) as Hlen.
  unfold prepare_top_cards_list.
  destruct (prepare_top_cards_from_rows 1 (zip idx sims) dataframe)
    as (cards & Hrun & _).
  { apply Forall_forall. intros [i s] Hin. apply elem_of_zip_l in Hin.
    eapply Forall_forall in Hbound; [|exact Hin]. cbn [fst]. lia. }
  destruct (prepare_top_cards_from_fields _ _ _ _ Hrun) as (Hranks & Hscores & Hcards).
  rewrite fst_zip in Hcards by lia. rewrite snd_zip in Hscores by lia.
  rewrite length_zip, <- Hlen, Nat.min_id in Hranks.
  exists cards. split_and!; [done..| |done|done]. by rewrite Hscores.
Qed.
End StageFacts.

(** ** The rerank stage as a whole (rerank.py) *)

Section RerankFacts.
Context {F : Type}.
Implicit Types (cards : list (sim_card F)) (results : list (cohere_result F))
  (ext : externals F) (log : list call) (z : Z).

Lemma pre_rank_index_from_lookup i cards (m : gmap Z (sim_card F)) z :
  pre_rank_index_from i cards m !! z
  = if decide (Z.of_nat i ≤ z < Z.of_nat (i + length cards))
    then cards !! (Z.to_nat z - i)%nat else m !! z.
Proof.
  revert i m. induction cards as [|card cards IH]; intros i m.
  - cbn [pre_rank_index_from length]. destruct (decide _); [lia|done].
  - cbn [pre_rank_index_from length]. rewrite IH.
    destruct (decide (Z.of_nat (S i) ≤ z < _)) as [Hin|Hout].
    + rewrite decide_True by lia.
      by replace (Z.to_nat z - i)%nat with (S (Z.to_nat z - S i)) by lia.
    + destruct (decide (z = Z.of_nat i)) as [->|Hne].
      * rewrite lookup_insert_eq, decide_True by lia.
        by replace (Z.to_nat (Z.of_nat i) - i)%nat with 0%nat by lia.
      * rewrite lookup_insert_ne by done. by rewrite decide_False by lia.
Qed.

Lemma prepare_for_cohere_at cards z :
  (prepare_for_cohere cards).2 !! z
  = if decide (0 ≤ z) then cards !! Z.to_nat z else None.
Proof.
  unfold prepare_for_cohere. cbn [snd]. rewrite pre_rank_index_from_lookup.
  rewrite lookup_empty, Nat.sub_0_r.
  destruct (decide (Z.of_nat 0 ≤ z < Z.of_nat (0 + length cards))) as [Hin|Hout].
  - by rewrite decide_True by lia.
  - destruct (decide (0 ≤ z)); [|done].
    symmetry. apply lookup_ge_None_2. lia.
Qed.

(** X13: the mapping handed to the reconstruction holds at the integer
    [i] the [i]-th card, and nothing at a negative integer or beyond the
    list; the document at a position is the content of the card the mapping
    holds there.  So an index of the provider's response, which counts
    documents, leads back to the card whose content was sent. *)
Theorem prepare_for_cohere_index cards z :
  (prepare_for_cohere cards).2 !! z
  = (if decide (0 ≤ z) then cards !! Z.to_nat z else None)
  ∧ content <$> (prepare_for_cohere cards).2 !! z
    = (if decide (0 ≤ z) then (prepare_for_cohere cards).1 !! Z.to_nat z else None).
Proof.
  split; [apply prepare_for_cohere_at|].
  rewrite prepare_for_cohere_at. unfold prepare_for_cohere. cbn [fst].
  destruct (decide (0 ≤ z)); [|done].
  change (map content cards) with (content <$> cards). by rewrite list_lookup_fmap.
Qed.

Lemma lookup_zip_seq {A} (l : list A) (start rank : nat) (x : A) :
  (rank, x) ∈ zip (seq start (length l)) l
  ↔ ∃ p, l !! p = Some x ∧ rank = (start + p)%nat.
Proof.
  rewrite list_elem_of_lookup. split.
  - intros [p Hp]. exists p. rewrite lookup_zip_with in Hp.
    destruct (seq start (length l) !! p) as [r|] eqn:Hr; [|done].
    destruct (l !! p) as [y|] eqn:Hy; [|done].
    cbn in Hp. injection Hp as <- <-.
    apply lookup_seq in Hr as [-> _]. done.
  - intros (p & Hp & ->). exists p. rewrite lookup_zip_with.
    rewrite lookup_seq_lt by (by eapply lookup_lt_Some). by rewrite Hp.
Qed.

Lemma reconstruct_from_cohere_loop results (idx : gmap Z (sim_card F)) :
  reconstruct_from_cohere results idx = reconstruct_loop 1 results idx.
Proof.
  unfold reconstruct_from_cohere.
  destruct (reconstruct_loop_sorted idx 1 results) as [_ Hsorted].
  by rewrite sort_by_key_sorted by (by apply StronglySorted_lt_le).
Qed.

(** The reranked cards, read off the response and the card list. *)
Lemma reconstruct_from_cards results cards (c : rel_card F) :
  c ∈ reconstruct_from_cohere results (prepare_for_cohere cards).2
  ↔ ∃ p r, results !! p = Some r ∧ 0 ≤ index r
           ∧ cards !! Z.to_nat (index r) = Some (rel_base c)
           ∧ relevance_score c = result_score r ∧ relevance_rank c = S p.
Proof.
  rewrite reconstruct_from_cohere_loop, reconstruct_loop_omap, list_elem_of_omap.
  split.
  - intros ([rank r] & [p [Hp ->]]%lookup_zip_seq & Hentry).
    unfold rel_entry in Hentry. cbn [fst snd] in Hentry.
    rewrite prepare_for_cohere_at in Hentry.
    destruct (decide (0 ≤ index r)) as [Hpos|]; [|done].
    destruct (cards !! Z.to_nat (index r)) as [card|] eqn:Hcard; [|done].
    cbn in Hentry. injection Hentry as <-. exists p, r. by split_and!.
  - intros (p & r & Hp & Hpos & Hcard & Hscore & Hrank).
    exists (S p, r). split; [apply lookup_zip_seq; by exists p|].
    unfold rel_entry. cbn [fst snd]. rewrite prepare_for_cohere_at.
    rewrite decide_True by done. rewrite Hcard. cbn.
    destruct c as [base score rank]. cbn in Hscore, Hrank. by subst.
Qed.

Lemma rerank_workflow_run ext query_text card cards num log :
  rerank_workflow ext query_text (card :: cards) num log
  = let documents := map content (card :: cards) in
    let top_n := top_n_argument num in
    match rerank ext query_text documents top_n with
    | inl e => (inl e, log ++ [CallRerank query_text documents top_n])
    | inr results =>
        (inr (reconstruct_from_cohere results (prepare_for_cohere (card :: cards)).2),
         log ++ [CallRerank query_text documents top_n])
    end.
Proof.
  unfold rerank_workflow, try_except, prepare_for_cohere, invoke, lift.
  cbn [mbind M_bind snd]. by destruct (rerank ext _ _ _).
Qed.

(** X14: on a non-empty card list the workflow calls the provider once,
    with the contents in card order and no limit when the configured number
    is absent or 0.  An exception of the provider is raised again
    unchanged.  Otherwise the reranked cards are exactly these: for each
    result whose index names a card, that card with the result's score and
    the result's 1-based position as rank; they come in increasing rank, and
    a result whose index names no card is dropped without an error. *)
Theorem rerank_workflow_outcome ext query_text cards num log :
  cards ≠ [] →
  let documents := map content cards in
  let top_n := top_n_argument num in
  let log' := log ++ [CallRerank query_text documents top_n] in
  (top_n = None ↔ num = None ∨ num = Some 0)
  ∧ match rerank ext query_text documents top_n with
    | inl e => rerank_workflow ext query_text cards num log = (inl e, log')
    | inr results =>
        ∃ reranked,
          rerank_workflow ext query_text cards num log = (inr reranked, log')
          ∧ StronglySorted lt (relevance_rank <$> reranked)
          ∧ ∀ c, c ∈ reranked
              ↔ ∃ p r, results !! p = Some r ∧ 0 ≤ index r
                       ∧ cards !! Z.to_nat (index r) = Some (rel_base c)
                       ∧ relevance_score c = result_score r ∧ relevance_rank c = S p
    end.
Proof.
  intros Hcards documents top_n log'. split.
  { subst top_n. unfold top_n_argument. destruct num as [k|]; [|naive_solver].
    destruct (Z.eqb_spec k 0) as [->|Hk]; [naive_solver|].
    split; [done|]. intros [Hx|Hx]; [done|]. injection Hx as ->. done. }
  destruct cards as [|card cards]; [done|].
  rewrite rerank_workflow_run. cbn zeta. fold documents top_n log'.
  destruct (rerank ext query_text documents top_n) as [e|results]; [done|].
  eexists. split; [reflexivity|]. split.
  - rewrite reconstruct_from_cohere_loop. apply reconstruct_loop_sorted.
  - intros c. apply reconstruct_from_cards.
Qed.
End RerankFacts.

(** ** The calls of a search and what its aggregate holds (core.py) *)

Section SearchFacts.
Context {F : Type} `{NumpySort F}.
Implicit Types (ext : externals F) (cfg : runtime_config F) (log : list call)
  (d : search_result F) (cards : list (sim_card F)) (reranked : list (rel_card F)).

(** The call of the rerank stage for a card list. *)
Lemma rerank_workflow_calls ext query_text cards num log :
  ∃ outcome,
    rerank_workflow ext query_text cards num log
    = (outcome,
       log ++ match cards with
              | [] => []
              | _ :: _ => [CallRerank query_text (map content cards) (top_n_argument num)]
              end)
    ∧ ∀ reranked, outcome = inr reranked →
        Forall (λ c, rel_base c ∈ cards) reranked.
Proof.
  destruct cards as [|card cards].
  - exists (inr []). split; [by rewrite app_nil_r|]. intros reranked [= <-]. constructor.
  - rewrite rerank_workflow_run. cbn zeta.
    destruct (rerank ext _ _ _) as [e|results]; (eexists; split; [reflexivity|]).
    + intros reranked Hx. discriminate Hx.
    + intros reranked [= <-]. apply Forall_forall. intros c Hc.
      apply (proj1 (reconstruct_from_cards results (card :: cards) c)) in Hc
        as (p & r & _ & _ & Hcard & _).
      by eapply list_elem_of_lookup_2.
Qed.

(** The stages before the prompt: the embedding call comes first, the
    rerank call is the only other one. *)
Lemma search_stages_calls ext cfg query_text log :
  ∃ outcome calls,
    search_stages ext cfg query_text log
    = (outcome, log ++ CallEmbedding query_text :: calls)
    ∧ match outcome with
      | inl _ => calls = [] ∨ ∃ documents top_n, calls = [CallRerank query_text documents top_n]
      | inr (cards, reranked, prompt) =>
          calls = match cards with
                  | [] => []
                  | _ :: _ => [CallRerank query_text (map content cards)
                                 (top_n_argument (num_wanted_back_from_cohere cfg))]
                  end
          ∧ Forall (λ c, rel_base c ∈ cards) reranked
          ∧ ∃ header,
              str_format ext (personal_LLM_prompt cfg) (in_prompt_number cfg) = inr header
              ∧ prompt = format_flashcard_results_for_llm header query_text reranked
      end.
Proof.
  unfold search_stages. rewrite bind_invoke.
  destruct (get_embedding ext query_text) as [e|query_embed].
  { exists (inl e), []. split; [done|]. by left. }
  rewrite bind_lift.
  destruct (get_top_n_similarities_and_indices _ _ _) as [e|[idx sims]].
  { exists (inl e), []. split; [done|]. by left. }
  rewrite bind_lift.
  destruct (prepare_top_cards_list _ _ _) as [e|cards].
  { exists (inl e), []. split; [done|]. by left. }
  rewrite (bind_run (rerank_workflow _ _ _ _)).
  destruct (rerank_workflow_calls ext query_text cards (num_wanted_back_from_cohere cfg)
              (log ++ [CallEmbedding query_text])) as (outcome & -> & Hbases).
  rewrite <- app_assoc. cbn [app].
  destruct outcome as [e|reranked].
  { eexists (inl e), _. split; [reflexivity|]. destruct cards; eauto. }
  rewrite bind_lift.
  destruct (str_format ext _ _) as [e|header] eqn:Hheader.
  { eexists (inl e), _. split; [reflexivity|]. destruct cards; eauto. }
  eexists (inr (cards, reranked, _)), _. split; [reflexivity|].
  split; [done|]. split; [by apply Hbases|]. by exists header.
Qed.

(** X15: a search never raises.  Its first call is the embedding of the
    query.  When it returns [None] it has called neither the generation
    provider nor the script: at most the rerank provider after the
    embedding.  When it returns an aggregate, its calls were, in this
    order: the embedding, the rerank provider unless there was no
    similarity card, the generation provider with the aggregate's prompt,
    and the script with the identifier query of the aggregate on its
    standard input. *)
Theorem search_flashcards_calls ext cfg query_text log :
  ∃ result calls,
    search_flashcards ext cfg query_text log
    = (inr result, log ++ CallEmbedding query_text :: calls)
    ∧ match result with
      | None =>
          calls = [] ∨ ∃ documents top_n, calls = [CallRerank query_text documents top_n]
      | Some d =>
          calls
          = match similarity_top_cards_full_fat d with
            | [] => []
            | _ :: _ =>
                [CallRerank query_text (map content (similarity_top_cards_full_fat d))
                   (top_n_argument (num_wanted_back_from_cohere cfg))]
            end
            ++ [CallChat (llm_prompt d); CallAnkiScript (stdin_payload (formatted_nids d))]
      end.
Proof.
  rewrite search_flashcards_run.
  destruct (search_stages_calls ext cfg query_text log) as (outcome & calls & -> & Hcalls).
  destruct outcome as [e|[[cards reranked] prompt]].
  { by exists None, calls. }
  cbn zeta. destruct Hcalls as (-> & _).
  destruct (aggregate_fields query_text cards reranked prompt (generated_text ext prompt))
    as (_ & Hcards & _ & Hprompt & _).
  cbn zeta in Hcards, Hprompt.
  eexists (Some _), _. split.
  - rewrite <- app_assoc. cbn [app]. reflexivity.
  - cbn [similarity_top_cards_full_fat llm_prompt formatted_nids set_anki_status].
    rewrite Hcards, Hprompt. unfold payload_of. by destruct cards.
Qed.

Lemma nid_to_card_of_elem reranked k (card : rel_card F) :
  nid_to_card_of reranked !! k = Some card → card ∈ reranked.
Proof.
  unfold nid_to_card_of.
  assert (Hgen : ∀ m0 : gmap string (rel_card F),
    (∀ k c, m0 !! k = Some c → c ∈ reranked) →
    ∀ l, (∀ c, c ∈ l → c ∈ reranked) →
    ∀ k c, foldl (λ m c', <[nid (rel_base c') := c']> m) m0 l !! k = Some c →
           c ∈ reranked).
  { intros m0 Hm0 l. revert m0 Hm0. induction l as [|c0 l IH]; intros m0 Hm0 Hl k' c';
      [apply Hm0|].
    cbn [foldl]. apply IH.
    - intros k2 c2. destruct (decide (nid (rel_base c0) = k2)) as [<-|Hne].
      + rewrite lookup_insert_eq. intros [= <-]. apply Hl, list_elem_of_here.
      + rewrite lookup_insert_ne by done. apply Hm0.
    - intros c Hc. by apply Hl, list_elem_of_further. }
  apply (Hgen ∅); [intros k' c'; by rewrite lookup_empty | done].
Qed.

Lemma create_llm_ranked_cards_elem reranked ids :
  Forall (λ c, llm_base c ∈ reranked ∧ nid (rel_base (llm_base c)) ∈ ids)
    (create_llm_ranked_cards reranked ids).
Proof.
  unfold create_llm_ranked_cards. generalize 1%nat.
  induction ids as [|id ids IH]; intros rank; [constructor|].
  cbn [llm_rank_loop].
  assert (Hrest : Forall (λ c, llm_base c ∈ reranked ∧ nid (rel_base (llm_base c)) ∈ id :: ids)
                    (llm_rank_loop (S rank) ids (nid_to_card_of reranked))).
  { eapply Forall_impl; [apply IH|]. intros c [Hc Hid]. split; [done|].
    by apply list_elem_of_further. }
  destruct (nid_to_card_of reranked !! id) as [card|] eqn:Hid; [|done].
  constructor; [|done]. cbn [llm_base]. split.
  - by eapply nid_to_card_of_elem.
  - rewrite (nid_to_card_of_keys _ _ _ Hid). apply list_elem_of_here.
Qed.

(** X16: what a returned aggregate holds belongs together.  Its
    identifiers are those extracted from its generated text, each a 13-digit
    number; its identifier query is built from them; every reranked card
    is one of its similarity cards with a relevance score and rank added;
    every finally ranked card is one of its reranked cards, and its
    identifier is one of the extracted ones; the status is what the bridge
    answered to that identifier query. *)
Theorem search_result_traces_back ext cfg query_text log d log' :
  search_flashcards ext cfg query_text log = (inr (Some d), log') →
  query d = query_text
  ∧ Forall (λ c, rel_base c ∈ similarity_top_cards_full_fat d) (reranked_cards d)
  ∧ extracted_nid_list d = extract_nid (llm_response d)
  ∧ Forall is_nid (extracted_nid_list d)
  ∧ formatted_nids d
    = match extracted_nid_list d with
      | [] => ""
      | _ :: _ => "nid:" +:+ str_join "," (extracted_nid_list d)
      end
  ∧ llm_ranked_cards d = create_llm_ranked_cards (reranked_cards d) (extracted_nid_list d)
  ∧ Forall (λ c, llm_base c ∈ reranked_cards d
                 ∧ nid (rel_base (llm_base c)) ∈ extracted_nid_list d) (llm_ranked_cards d)
  ∧ anki_status d = bridge_status ext (stdin_payload (formatted_nids d)).
Proof.
  rewrite search_flashcards_run.
  destruct (search_stages_calls ext cfg query_text log) as (outcome & calls & -> & Hcalls).
  destruct outcome as [e|[[cards reranked] prompt]]; [intros Hx; discriminate Hx|].
  cbn zeta. destruct Hcalls as (_ & Hbases & _).
  set (answer := generated_text ext prompt).
  intros Hd. injection Hd as <- _.
  destruct (aggregate_fields query_text cards reranked prompt answer)
    as (Hquery & Hcards & Hreranked & _ & Hresponse & Hids & _ & Hranked).
  cbn zeta in *.
  cbn [query similarity_top_cards_full_fat reranked_cards llm_response extracted_nid_list
       formatted_nids llm_ranked_cards anki_status set_anki_status].
  rewrite Hquery, Hcards, Hreranked, Hresponse, Hids, Hranked.
  split_and!; try done.
  - rewrite extract_nid_occurrences. apply occurrences_are_nids.
  - unfold aggregate, format_nids_for_anki.
    cbn [extracted_nid_list formatted_nids set_llm_ranked_cards].
    by destruct (extract_nid answer).
  - apply create_llm_ranked_cards_elem.
Qed.
End SearchFacts.

(** ** Cards that share an identifier (core.py, [create_llm_ranked_cards]) *)

Section SharedIdentifiers.
Context {F : Type}.
Implicit Types (reranked : list (rel_card F)) (ids : list string) (k : string).

Lemma nid_to_card_of_last reranked k :
  nid_to_card_of reranked !! k = last (filter (λ c, nid (rel_base c) = k) reranked).
Proof.
  unfold nid_to_card_of.
  induction reranked as [|card reranked IH] using rev_ind; [done|].
  rewrite foldl_snoc, filter_app.
  destruct (decide (nid (rel_base card) = k)) as [<-|Hne].
  - rewrite lookup_insert_eq, filter_cons_True by done.
    rewrite filter_nil. by rewrite last_snoc.
  - rewrite lookup_insert_ne by done.
    rewrite filter_cons_False by done. by rewrite filter_nil, app_nil_r.
Qed.

(** X17: the dictionary of cards by identifier keeps, for an identifier
    that several reranked cards carry, the last of them.  So the finally
    ranked list holds, for each extracted identifier in order, the last
    reranked card with that identifier, ranked with the identifier's
    1-based position; an identifier named twice gives the same card twice,
    with two ranks. *)
Theorem create_llm_ranked_cards_last_wins reranked ids :
  create_llm_ranked_cards reranked ids
  = omap (λ entry : nat * string,
            (λ card, LlmCard card entry.1)
              <$> last (filter (λ c, nid (rel_base c) = entry.2) reranked))
         (zip (seq 1 (length ids)) ids).
Proof.
  unfold create_llm_ranked_cards. rewrite llm_rank_loop_omap.
  apply list_omap_ext, Forall2_same_length_lookup_2; [done|].
  intros p entry entry' Hentry Hentry'. assert (entry' = entry) as -> by congruence.
  unfold llm_entry. by rewrite nid_to_card_of_last.
Qed.
End SharedIdentifiers.

(** ** The progress timeline (interface.py, [SearchProgressHandler._add]) *)

Section Timeline.
Import Interface.
Implicit Types (parts messages : list string) (part p : string).

Lemma prefix_split_root part : String.prefix (split_root part) part = true.
Proof.
  induction part as [|c rest IH]; [done|]. cbn [split_root].
  destruct (String.prefix " (" (String c rest)); [done|].
  cbn [String.prefix]. by destruct (ascii_dec c c).
Qed.

Lemma add_unchanged parts part :
  (∃ p, p ∈ parts ∧ String.prefix (split_root part) p = true) → add parts part = parts.
Proof.
  intros (p & Hp & Hroot). unfold add.
  assert (existsb (λ p, String.prefix (split_root part) p) parts = true) as ->; [|done].
  apply existsb_exists. exists p. split; [by apply list_elem_of_In|done].
Qed.

Lemma add_appended parts part :
  (∀ p, p ∈ parts → String.prefix (split_root part) p = false) →
  add parts part = parts ++ [part].
Proof.
  intros Hnone. unfold add.
  assert (existsb (λ p, String.prefix (split_root part) p) parts = false) as ->; [|done].
  apply not_true_is_false. intros (p & Hp%list_elem_of_In & Hroot)%existsb_exists.
  by rewrite (Hnone p Hp) in Hroot.
Qed.

Lemma add_cases parts part :
  (add parts part = parts ∧ ∃ p, p ∈ parts ∧ String.prefix (split_root part) p = true)
  ∨ (add parts part = parts ++ [part]
     ∧ ∀ p, p ∈ parts → String.prefix (split_root part) p = false).
Proof.
  destruct (existsb (λ p, String.prefix (split_root part) p) parts) eqn:Hex.
  - left. apply existsb_exists in Hex as (p & Hp%list_elem_of_In & Hroot).
    split; [apply add_unchanged|]; eauto.
  - right. assert (∀ p, p ∈ parts → String.prefix (split_root part) p = false) as Hnone.
    { intros p Hp. apply not_true_is_false. intros Hroot.
      assert (existsb (λ p, String.prefix (split_root part) p) parts = true) as Hyes.
      { apply existsb_exists. exists p. split; [by apply list_elem_of_In|done]. }
      congruence. }
    split; [by apply add_appended|done].
Qed.

(** X18: whatever parts are reported to a fresh handler, in whatever
    order, the timeline shows no two parts with the same root (the text
    before a duration in brackets), it shows parts in the order they were
    first reported, and every reported part is represented by a shown part
    that starts with its root.  Reporting a part again changes nothing. *)
Theorem timeline_shows_each_root_once messages :
  let shown := foldl add [] messages in
  NoDup (split_root <$> shown)
  ∧ sublist shown messages
  ∧ (∀ part, part ∈ messages →
       ∃ p, p ∈ shown ∧ String.prefix (split_root part) p = true)
  ∧ (∀ part, part ∈ messages → add shown part = shown).
Proof.
  intros shown. subst shown.
  assert (Hinv : NoDup (split_root <$> foldl add [] messages)
                 ∧ sublist (foldl add [] messages) messages
                 ∧ ∀ part, part ∈ messages →
                     ∃ p, p ∈ foldl add [] messages
                          ∧ String.prefix (split_root part) p = true).
  { induction messages as [|part messages IH] using rev_ind.
    - split_and!; [constructor|constructor|]. intros part Hpart. by apply elem_of_nil in Hpart.
    - destruct IH as (Hnodup & Hsub & Hshown). rewrite foldl_snoc.
      destruct (add_cases (foldl add [] messages) part) as [[-> Hold]|[-> Hnew]].
      + split_and!; [done|by apply sublist_inserts_r|].
        intros part' [Hpart'|Hlast]%elem_of_app; [eauto|].
        apply list_elem_of_singleton in Hlast as ->. done.
      + split_and!.
        * rewrite fmap_app. apply NoDup_app. split_and!; [done| |apply NoDup_singleton].
          intros root (p & Hroot & Hp)%list_elem_of_fmap Hlast.
          apply list_elem_of_singleton in Hlast. cbn in Hlast.
          specialize (Hnew p Hp). rewrite <- Hlast, Hroot, prefix_split_root in Hnew.
          discriminate Hnew.
        * by apply sublist_app.
        * intros part' [Hpart'|Hlast]%elem_of_app.
          -- destruct (Hshown part' Hpart') as (p & Hp & Hroot).
             exists p. split; [apply elem_of_app; by left|done].
          -- apply list_elem_of_singleton in Hlast as ->.
             exists part. split; [apply elem_of_app; right; apply list_elem_of_here|].
             apply prefix_split_root. }
  destruct Hinv as (Hnodup & Hsub & Hshown). split_and!; [done..|].
  intros part Hpart. by apply add_unchanged, Hshown.
Qed.
End Timeline.

Lemma prepare_top_cards_list_rows_witness :
  ∃ cards,
    prepare_top_cards_list [0%nat; 2%nat] [b32_one; b32_zero] (dataframe demo_config)
    = inr cards
    ∧ length cards = 2%nat
    ∧ ∀ p i s, [0%nat; 2%nat] !! p = Some i → [b32_one; b32_zero] !! p = Some s →
        ∃ row, dataframe demo_config !! i = Some row
          ∧ cards !! p = Some (SimCard (S p) (row_nid row) s (flashcard_content row)).
Proof.
  apply (prepare_top_cards_list_rows [0%nat; 2%nat] [b32_one; b32_zero]
           (dataframe demo_config)).
  repeat constructor; simpl; lia.
Defined.

Lemma prepare_top_cards_list_missing_row_witness :
  prepare_top_cards_list [0%nat; 5%nat] [b32_one; b32_zero] (dataframe demo_config)
  = inl (IndexError 5 3).
Proof.
  apply (prepare_top_cards_list_missing_row [0%nat; 5%nat] [b32_one; b32_zero]
           (dataframe demo_config) 1 5).
  - reflexivity.
  - simpl. lia.
  - simpl. lia.
  - repeat constructor; simpl; lia.
Defined.

Lemma top_n_result_shape_witness :
  NoDup [0%nat; 2%nat]
  ∧ gathered (similarity_scores [b32_one; b32_zero] fan_matrix) [0%nat; 2%nat]
      [b32_one; S754_finite false 11863283 (-24)]
  ∧ descending [b32_one; S754_finite false 11863283 (-24)]
  ∧ Z.of_nat (length [0%nat; 2%nat]) = 3 + -1.
Proof.
  apply (top_n_result_shape [b32_one; b32_zero] fan_matrix (-1)). reflexivity.
Defined.

Lemma similarity_stage_cards_witness :
  ∃ cards,
    prepare_top_cards_list [0%nat; 2%nat] [b32_one; S754_finite false 11863283 (-24)]
      (dataframe demo_config) = inr cards
    ∧ cosine_similarity_rank <$> cards = [1%nat; 2%nat]
    ∧ nid <$> cards = ["1700000000001"; "1700000000003"].
Proof.
  destruct (similarity_stage_cards [b32_one; b32_zero] fan_matrix 2 (dataframe demo_config)
              [0%nat; 2%nat] [b32_one; S754_finite false 11863283 (-24)])
    as (cards & Hrun & Hranks & _).
  - reflexivity.
  - simpl. lia.
  - exists cards. split; [exact Hrun|]. split; [exact Hranks|].
    injection Hrun as <-. reflexivity.
Defined.

Lemma rerank_workflow_outcome_witness :
  ∃ reranked,
    rerank_workflow (demo_services failing_chat mac_with_anki) "valves" demo_sim_cards None []
    = (inr reranked, [CallRerank "valves" ["Aortic valve"; "Tricuspid valve"] None])
    ∧ StronglySorted lt (relevance_rank <$> reranked).
Proof.
  destruct (rerank_workflow_outcome (demo_services failing_chat mac_with_anki) "valves"
              demo_sim_cards None []) as [_ Hout].
  - discriminate.
  - destruct Hout as (reranked & Hrun & Hsorted & _).
    exists reranked. split; [exact Hrun | exact Hsorted].
Defined.

Lemma search_result_traces_back_witness :
  ∃ d,
    (search_flashcards (demo_services (λ _, inr "Best: [nid:1700000000001].") mac_with_anki)
       demo_config "valves" []).1 = inr (Some d)
    ∧ extracted_nid_list d = ["1700000000001"]
    ∧ Forall (λ c, llm_base c ∈ reranked_cards d
                   ∧ nid (rel_base (llm_base c)) ∈ extracted_nid_list d) (llm_ranked_cards d).
Proof.
  set (ext := demo_services (λ _, inr "Best: [nid:1700000000001].") mac_with_anki).
  set (d := SearchResult "valves" demo_sim_cards demo_rel_cards demo_prompt
              "Best: [nid:1700000000001]." ["1700000000001"] "nid:1700000000001"
              (JString "Anki is running")
              [LlmCard (RelCard (SimCard 1 "1700000000001" b32_one "Aortic valve") b32_one 2) 1]).
  destruct (search_result_traces_back ext demo_config "valves" [] d
              (search_flashcards ext demo_config "valves" []).2)
    as (_ & _ & _ & _ & _ & _ & Hranked & _).
  - vm_compute. reflexivity.
  - exists d. split; [vm_compute; reflexivity|]. split; [reflexivity | exact Hranked].
Defined.
